(** * tf-cdk-python-aws: the configuration resolution engine

    A shallow embedding of [awsterraform.py] and [main.py]: the naming
    convention, the value resolver, the resource type mapper and the
    builder loop, followed by the properties of the specification.

    Python strings are modelled by [string]; a character is a code point
    below 256.  Python dictionaries keep insertion order and are modelled
    by association lists whose keys are pairwise distinct. *)

From Stdlib Require Import String Ascii List Bool ZArith NArith Lia Permutation.
Import ListNotations.
Set Warnings "-register-all".
Local Open Scope list_scope.
Local Open Scope string_scope.

(** ** Python string primitives *)

Module PyStr.

(** [str.lower] on one code point: A-Z and the upper case letters of the
    Latin-1 supplement (U+00C0..U+00DE without U+00D7) move up by 32. *)
Definition lower_char (c : ascii) : ascii :=
  let n := N_of_ascii c in
  if ((65 <=? n) && (n <=? 90) || (192 <=? n) && (n <=? 214)
      || (216 <=? n) && (n <=? 222))%N
  then ascii_of_N (n + 32) else c.

Fixpoint lower (s : string) : string :=
  match s with
  | EmptyString => EmptyString
  | String c t => String (lower_char c) (lower t)
  end.

(** [str.isspace] on one code point: the characters [str.strip] removes. *)
Definition isspace (c : ascii) : bool :=
  let n := N_of_ascii c in
  ((9 <=? n) && (n <=? 13) || (28 <=? n) && (n <=? 32)
   || (n =? 133) || (n =? 160))%N.

Fixpoint lstrip (s : string) : string :=
  match s with
  | EmptyString => EmptyString
  | String c t => if isspace c then lstrip t else s
  end.

Fixpoint rstrip (s : string) : string :=
  match s with
  | EmptyString => EmptyString
  | String c t =>
      match rstrip t with
      | EmptyString => if isspace c then EmptyString else String c EmptyString
      | t' => String c t'
      end
  end.

(** [s.strip()] *)
Definition strip (s : string) : string := rstrip (lstrip s).

(** [s.startswith(p)] *)
Definition startswith (s p : string) : bool := String.prefix p s.

(** [s[n:]] *)
Fixpoint slice_from (n : nat) (s : string) : string :=
  match n, s with
  | O, _ => s
  | S n', String _ t => slice_from n' t
  | S _, EmptyString => EmptyString
  end.

(** [sub in s] for two strings *)
Fixpoint contains (sub s : string) : bool :=
  if String.prefix sub s then true
  else match s with
       | EmptyString => false
       | String _ t => contains sub t
       end.

(** [s.split(sep, 1)] for a one character separator that occurs in [s]:
    the text before the first separator and the text after it.  Without a
    separator the whole string is the first component. *)
Fixpoint split_once (sep : ascii) (s : string) : string * string :=
  match s with
  | EmptyString => (EmptyString, EmptyString)
  | String c t =>
      if Ascii.eqb c sep then (EmptyString, t)
      else let '(a, b) := split_once sep t in (String c a, b)
  end.

(** [s.split(sep)[0]] for a one character separator *)
Definition first_field (sep : ascii) (s : string) : string :=
  fst (split_once sep s).

End PyStr.
Import PyStr.

(** ** Python dictionaries as ordered association lists *)

Section Dict.
Context {V : Type}.

(** [d.get(k)] *)
Fixpoint dict_get (d : list (string * V)) (k : string) : option V :=
  match d with
  | [] => None
  | (k', v) :: t => if String.eqb k' k then Some v else dict_get t k
  end.

(** [k in d] *)
Definition dict_has (d : list (string * V)) (k : string) : bool :=
  match dict_get d k with Some _ => true | None => false end.

(** [d[k] = v]: an existing key keeps its place, a new one goes last. *)
Fixpoint dict_set (d : list (string * V)) (k : string) (v : V)
  : list (string * V) :=
  match d with
  | [] => [(k, v)]
  | (k', v') :: t =>
      if String.eqb k' k then (k', v) :: t else (k', v') :: dict_set t k v
  end.

(** the dictionary left by [d.pop(k, default)] *)
Fixpoint dict_remove (d : list (string * V)) (k : string)
  : list (string * V) :=
  match d with
  | [] => []
  | (k', v) :: t =>
      if String.eqb k' k then t else (k', v) :: dict_remove t k
  end.

(** [d.setdefault(k, v)], as the dictionary it leaves *)
Definition dict_setdefault (d : list (string * V)) (k : string) (v : V)
  : list (string * V) :=
  if dict_has d k then d else (d ++ [(k, v)])%list.

Definition dict_keys (d : list (string * V)) : list string := map fst d.
End Dict.

(** ** The argument tree *)

(** What [yaml.safe_load] yields, and what a handle attribute holds. *)
Inductive Value : Type :=
| VNone
| VBool (b : bool)
| VInt (z : Z)
| VStr (s : string)
| VList (items : list Value)
| VDict (entries : list (string * Value)).

Definition Dict := list (string * Value).

(** Python truthiness of a value *)
Definition truthy (v : Value) : bool :=
  match v with
  | VNone => false
  | VBool b => b
  | VInt z => negb (Z.eqb z 0)
  | VStr s => negb (String.eqb s "")
  | VList l => match l with [] => false | _ => true end
  | VDict d => match d with [] => false | _ => true end
  end.

(** ** Exceptions, diagnostics and the small monad of the resolver *)

Inductive Exn : Type :=
| ValueError (msg : string)
| ImportError (module : string)
| AttributeError (attr : string)
| BackendError (msg : string).

(** One constructor per [print] of the program, with the interpolated
    fields. *)
Inductive Event : Type :=
| WarnSecret (secret_key : string)
| WarnAttribute (ref_attr ref_res : string)
| CreatedDataSource (terraform_name resource_type : string)
| CreatedResource (terraform_name resource_type : string)
| ErrorCreating (name resource_type : string) (e : Exn)
| FailedExport (name : string) (e : Exn)
| ErrorInStack (e : Exn).

(** A computation prints diagnostics and returns or raises. *)
Definition M (A : Type) : Type := list Event * (Exn + A).

Definition ret {A} (a : A) : M A := ([], inr a).
Definition raise {A} (e : Exn) : M A := ([], inl e).
Definition print (ev : Event) : M unit := ([ev], inr tt).
Definition bind {A B} (m : M A) (k : A -> M B) : M B :=
  match m with
  | (w, inl e) => (w, inl e)
  | (w, inr a) => let '(w', r) := k a in ((w ++ w')%list, r)
  end.

Notation "x <- m ;; k" := (bind m (fun x => k))
  (at level 61, m at next level, right associativity).
Notation "m ;;; k" := (bind m (fun _ => k))
  (at level 61, right associativity).

(** ** Resource handles and the registry *)

(** A handle is the backend's object.  [h_getattr] is direct property
    access ([None] stands for [AttributeError]); [h_get_string] is the
    generic accessor, which an object may lack. *)
Record Handle : Type := {
  h_getattr : string -> option Value;
  h_get_string : option (string -> Value)
}.

Definition Registry := list (string * Handle).

(** ** Value resolver ([resolve_value]) *)

(** The name and the attribute of the text after [ref:]. *)
Definition parse_ref (ref_text : string) : string * string :=
  if contains "." ref_text then split_once "." ref_text
  else (ref_text, "id").

(** Lines 61-72: the registry lookup and the attribute read. *)
Definition read_ref (resources : Registry) (ref_res ref_attr : string)
  : M Value :=
  match dict_get resources ref_res with
  | None =>
      raise (ValueError ("Referenced resource '" ++ ref_res ++ "' not found."))
  | Some resource_obj =>
      match h_getattr resource_obj ref_attr with
      | Some v => ret v
      | None =>
          print (WarnAttribute ref_attr ref_res) ;;;
          match h_get_string resource_obj with
          | Some get_string => ret (get_string ref_attr)
          | None => raise (AttributeError "get_string")
          end
      end
  end.

Definition resolve_str (value : string) (resources : Registry) : M Value :=
  if startswith value "secret:" then
    let secret_key := slice_from (String.length "secret:") value in
    print (WarnSecret secret_key) ;;;
    ret (VStr ("${" ++ secret_key ++ "}"))
  else if startswith value "ref:" then
    let ref_text := slice_from 4 value in
    let '(ref_res, ref_attr) := parse_ref ref_text in
    read_ref resources ref_res ref_attr
  else ret (VStr value).

Fixpoint resolve_value (value : Value) (resources : Registry) : M Value :=
  match value with
  | VDict entries =>
      d <- (fix items (es : list (string * Value)) : M Dict :=
              match es with
              | [] => ret []
              | (k, v) :: t =>
                  v' <- resolve_value v resources ;;
                  t' <- items t ;;
                  ret ((k, v') :: t')
              end) entries ;;
      ret (VDict d)
  | VList l =>
      l' <- (fix elems (xs : list Value) : M (list Value) :=
               match xs with
               | [] => ret []
               | x :: t =>
                   x' <- resolve_value x resources ;;
                   t' <- elems t ;;
                   ret (x' :: t')
               end) l ;;
      ret (VList l')
  | VStr s => resolve_str s resources
  | _ => ret value
  end.

(** [AWSResourceBuilder.resolve_args] *)
Fixpoint resolve_args (args : Dict) (resources : Registry) : M Dict :=
  match args with
  | [] => ret []
  | (key, value) :: t =>
      v' <- resolve_value value resources ;;
      t' <- resolve_args t resources ;;
      ret ((key, v') :: t')
  end.

(** ** Configuration *)

(** One entry of [aws_resources] ([config.AWSResource]).  An absent
    [args] is the empty dictionary, as [resource_cfg.get("args", {})]
    makes it; the [existing] mark is a key of [args]. *)
Record AWSResource : Type := {
  res_name : string;
  res_type : string;
  res_args : Dict;
  res_custom_name : option string
}.

(** The configuration dictionary ([config.Config]).  [scalars] holds the
    string valued top level keys that are present; an absent [tags] is the
    empty dictionary and an absent [aws_resources] the empty list, as the
    defaults of [self.config.get] make them. *)
Record Config : Type := {
  scalars : list (string * string);
  tags : Dict;
  aws_resources : list AWSResource
}.

(** [self.config.get(key, default)] on a string valued key *)
Definition config_get (config : Config) (key default : string) : string :=
  match dict_get (scalars config) key with
  | Some v => v
  | None => default
  end.

(** ** Naming convention *)

Definition AWS_REGION_ABBREVIATIONS : list (string * string) :=
  [ ("us-east-1", "use1"); ("us-east-2", "use2"); ("us-west-1", "usw1");
    ("us-west-2", "usw2"); ("af-south-1", "afs1"); ("ap-east-1", "ape1");
    ("ap-south-1", "aps1"); ("ap-northeast-1", "apne1");
    ("ap-northeast-2", "apne2"); ("ap-northeast-3", "apne3");
    ("ap-southeast-1", "apse1"); ("ap-southeast-2", "apse2");
    ("ca-central-1", "cac1"); ("eu-central-1", "euc1");
    ("eu-west-1", "euw1"); ("eu-west-2", "euw2"); ("eu-west-3", "euw3");
    ("eu-north-1", "eun1"); ("eu-south-1", "eus1"); ("me-south-1", "mes1");
    ("sa-east-1", "sae1"); ("us-gov-east-1", "usge1");
    ("us-gov-west-1", "usgw1"); ("cn-north-1", "cnn1");
    ("cn-northwest-1", "cnnw1") ].

Definition get_abbreviation (region : string) : string :=
  match dict_get AWS_REGION_ABBREVIATIONS (lower region) with
  | Some abbr => abbr
  | None => lower (first_field "-" region)
  end.

Definition generate_resource_name (config : Config) (base_name : string)
  : string :=
  let team := lower (strip (config_get config "team" "team")) in
  let service := lower (strip (config_get config "service" "svc")) in
  let env := lower (strip (config_get config "environment" "dev")) in
  let reg_abbr := get_abbreviation (config_get config "region" "us-east-1") in
  lower (team ++ "-" ++ service ++ "-" ++ env ++ "-" ++ reg_abbr ++ "-"
         ++ base_name).

(** ** Tag policy *)

Definition tag_supporting_resources : list string :=
  [ "s3_bucket.s3bucket";
    "lambda_function.lambdafunction";
    "dynamodb_table.dynamodbtable";
    "api_gateway_rest_api.apigatewayrestapi";
    "cognito_user_pool.cognitouserpool";
    "sqs_queue.sqsqueue";
    "apigatewayv2_api.apigatewayv2api";
    "ssm_parameter.ssmparameter";
    "iam_role.iamrole";
    "cloudfront_distribution.cloudfrontdistribution" ].

Definition supports_tags (resource_type : string) : bool :=
  let resource_type_lower := lower resource_type in
  existsb (fun tag_resource => contains (lower tag_resource) resource_type_lower)
          tag_supporting_resources.

Definition _apply_common_parameters (config : Config) (resolved_args : Dict)
    (resource_type : string) : Dict :=
  if supports_tags resource_type then
    let resource_tags := tags config in
    if truthy (VDict resource_tags)
    then dict_setdefault resolved_args "tags" (VDict resource_tags)
    else resolved_args
  else resolved_args.

(** ** Resource type mapper *)

Definition service_map : list (string * string) :=
  [ ("vpc", "vpc"); ("ec2", "instance"); ("s3", "s3_bucket");
    ("s3_bucket", "s3_bucket"); ("iam", "iam_role");
    ("lambda", "lambda_function"); ("apigateway", "api_gateway_rest_api");
    ("apigatewayv2", "apigatewayv2_api"); ("dynamodb", "dynamodb_table");
    ("cloudfront", "cloudfront_distribution");
    ("cloudwatch", "cloudwatch_dashboard"); ("cognito", "cognito_user_pool");
    ("sqs", "sqs_queue"); ("ssm", "ssm_parameter");
    ("bedrock", "bedrock_agent") ].

Definition _map_resource_type (resource_type : string) : string * string :=
  let '(service, class_name) :=
    if contains "." resource_type then split_once "." resource_type
    else ("ec2", resource_type) in
  let module_name :=
    match dict_get service_map (lower service) with
    | Some m => m
    | None => lower service
    end in
  (module_name, class_name).

(** ** The provisioning backend *)

(** [ResourceClass(self.stack, name, **resolved_args)]: the construct id
    and the keyword arguments give a handle, or the call raises. *)
Definition Ctor := string -> Dict -> Exn + Handle.

(** A module of [imports.aws]: [getattr(module, class_name)], [None] for
    [AttributeError]. *)
Definition PyModule := string -> option Ctor.

(** [importlib.import_module], [None] for [ImportError]. *)
Definition Imports := string -> option PyModule.

(** What has been added to the Terraform stack. *)
Inductive Construct : Type :=
| AwsProvider (id region : string)
| Resource (import_path class_name id : string) (kwargs : Dict)
| TerraformOutput (id : string) (value : Value).

(** The id of a construct. *)
Definition construct_id (c : Construct) : string :=
  match c with
  | AwsProvider id _ => id
  | Resource _ _ id _ => id
  | TerraformOutput id _ => id
  end.

(** [TerraformOutput(self.stack, id, value=v)]: given the constructs the
    stack holds, the id and the value, the call adds the output ([None])
    or raises. *)
Definition OutputCtor := list Construct -> string -> Value -> option Exn.

(** ** The builder ([AWSResourceBuilder]) *)

Record Builder : Type := {
  stack : list Construct;
  config : Config;
  resources : Registry;
  stdout : list Event
}.

(** How a statement ends. *)
Inductive Flow : Type :=
| Normal
| Raised (e : Exn).

(** [AWSResourceBuilder.__init__] *)
Definition new_builder (config_data : Config) : Builder :=
  {| stack := [AwsProvider "aws" (config_get config_data "region" "us-east-1")];
     config := config_data;
     resources := [];
     stdout := [] |}.

Definition say (b : Builder) (w : list Event) : Builder :=
  {| stack := stack b; config := config b; resources := resources b;
     stdout := (stdout b ++ w)%list |}.

(** [self.resources[name] = handle], with the construct the call added to
    the stack and the line printed after it. *)
Definition register (b : Builder) (name : string) (h : Handle)
    (c : Construct) (ev : Event) : Builder :=
  {| stack := (stack b ++ [c])%list;
     config := config b;
     resources := dict_set (resources b) name h;
     stdout := (stdout b ++ [ev])%list |}.

(** [import_module(path)] followed by [getattr(module, class_name)] *)
Definition import_class (imports : Imports) (path class_name : string)
  : Exn + Ctor :=
  match imports path with
  | None => inl (ImportError path)
  | Some module =>
      match module class_name with
      | None => inl (AttributeError class_name)
      | Some cls => inr cls
      end
  end.

(** The body of the [try] of [build], lines 159-186.  Nothing is assigned
    before the constructor has returned, so the body is a function of the
    builder to the registration it ends with. *)
Definition materialize (imports : Imports) (b : Builder)
    (name resource_type : string) (custom_name : option string)
    (is_existing : Value) (resolved_args : Dict)
  : Exn + (Handle * Construct * Event) :=
  let '(module_name, class_name) := _map_resource_type resource_type in
  match import_class imports ("imports.aws." ++ module_name) class_name with
  | inl e => inl e
  | inr ResourceClass =>
      let terraform_name :=
        match custom_name with
        | Some c => if truthy (VStr c) then c
                    else generate_resource_name (config b) name
        | None => generate_resource_name (config b) name
        end in
      let resolved_args :=
        _apply_common_parameters (config b) resolved_args resource_type in
      if truthy is_existing then
        match import_class imports ("imports.aws." ++ module_name ++ "_data")
                (class_name ++ "Data") with
        | inl e => inl e
        | inr DataClass =>
            match DataClass name resolved_args with
            | inl e => inl e
            | inr h =>
                inr (h,
                     Resource ("imports.aws." ++ module_name ++ "_data")
                       (class_name ++ "Data") name resolved_args,
                     CreatedDataSource terraform_name resource_type)
            end
        end
      else
        match ResourceClass name resolved_args with
        | inl e => inl e
        | inr h =>
            inr (h,
                 Resource ("imports.aws." ++ module_name) class_name name
                   resolved_args,
                 CreatedResource terraform_name resource_type)
        end
  end.

(** [except (ImportError, AttributeError)] *)
Definition caught (e : Exn) : bool :=
  match e with
  | ImportError _ | AttributeError _ => true
  | _ => false
  end.

(** One turn of the loop of [build], lines 149-190. *)
Definition build_one (imports : Imports) (b : Builder)
    (resource_cfg : AWSResource) : Builder * Flow :=
  let name := res_name resource_cfg in
  let resource_type := res_type resource_cfg in
  let args := res_args resource_cfg in
  let custom_name := res_custom_name resource_cfg in
  let is_existing :=
    match dict_get args "existing" with
    | Some v => v
    | None => VBool false
    end in
  let args := dict_remove args "existing" in
  match resolve_args args (resources b) with
  | (w, inl e) => (say b w, Raised e)
  | (w, inr resolved_args) =>
      let b := say b w in
      match materialize imports b name resource_type custom_name is_existing
              resolved_args with
      | inr (h, c, ev) => (register b name h c ev, Normal)
      | inl e =>
          if caught e
          then (say b [ErrorCreating name resource_type e], Normal)
          else (b, Raised e)
      end
  end.

Fixpoint build_loop (imports : Imports) (b : Builder)
    (aws_resources : list AWSResource) : Builder * Flow :=
  match aws_resources with
  | [] => (b, Normal)
  | resource_cfg :: rest =>
      match build_one imports b resource_cfg with
      | (b', Normal) => build_loop imports b' rest
      | (b', Raised e) => (b', Raised e)
      end
  end.

(** The export loop of [build], lines 193-197.  [resource.id] may raise
    and so may [TerraformOutput]; [except Exception] takes both, prints
    the failure and goes on with the next resource. *)
Fixpoint export (terraform_output : OutputCtor) (b : Builder)
    (items : Registry) : Builder :=
  match items with
  | [] => b
  | (name, resource) :: rest =>
      match h_getattr resource "id" with
      | Some v =>
          match terraform_output (stack b) ("output_" ++ name) v with
          | None =>
              export terraform_output
                {| stack :=
                     (stack b ++ [TerraformOutput ("output_" ++ name) v])%list;
                   config := config b; resources := resources b;
                   stdout := stdout b |} rest
          | Some e => export terraform_output (say b [FailedExport name e]) rest
          end
      | None =>
          export terraform_output
            (say b [FailedExport name (AttributeError "id")]) rest
      end
  end.

(** [AWSResourceBuilder.build] *)
Definition build (imports : Imports) (terraform_output : OutputCtor)
    (b : Builder) : Builder * Flow :=
  match build_loop imports b (aws_resources (config b)) with
  | (b', Normal) => (export terraform_output b' (resources b'), Normal)
  | (b', Raised e) => (b', Raised e)
  end.

(** ** Loading the configuration ([main.py]) *)

Definition required_keys : list string :=
  ["team"; "service"; "environment"; "region"].

(** The loop of [load_config] over the keys still to check. *)
Fixpoint check_keys (keys : list string) (config_data : Config)
  : Exn + Config :=
  match keys with
  | [] => inr config_data
  | key :: rest =>
      if negb (dict_has (scalars config_data) key)
      then inl (ValueError ("Missing required configuration key: " ++ key))
      else check_keys rest config_data
  end.

(** [load_config], from the document [yaml.safe_load] has read. *)
Definition load_config (config_data : Config) : Exn + Config :=
  check_keys required_keys config_data.

(** [AwsClassicStack.__init__]: what was printed, and the builder it
    leaves or the exception it raises again. *)
Definition AwsClassicStack (imports : Imports) (terraform_output : OutputCtor)
    (document : Config) : list Event * (Exn + Builder) :=
  match load_config document with
  | inl e => ([ErrorInStack e], inl e)
  | inr config_data =>
      match build imports terraform_output (new_builder config_data) with
      | (b, Normal) => (stdout b, inr b)
      | (b, Raised e) => ((stdout b ++ [ErrorInStack e])%list, inl e)
      end
  end.

(** The constructs of a stack that are outputs. *)
Definition outputs (b : Builder) : list (string * Value) :=
  flat_map (fun c => match c with
                     | TerraformOutput id v => [(id, v)]
                     | _ => []
                     end) (stack b).

(** ** Predicates of the specification *)

(** A string of whitespace only. *)
Fixpoint all_space (s : string) : bool :=
  match s with
  | EmptyString => true
  | String c t => isspace c && all_space t
  end.

Definition starts_with_space (s : string) : bool :=
  match s with
  | EmptyString => false
  | String c _ => isspace c
  end.

Fixpoint ends_with_space (s : string) : bool :=
  match s with
  | EmptyString => false
  | String c EmptyString => isspace c
  | String _ t => ends_with_space t
  end.

(** [trims s s']: [s'] is [s] without the whitespace around it. *)
Definition trims (s s' : string) : Prop :=
  exists l r,
    s = l ++ s' ++ r
    /\ all_space l = true /\ all_space r = true
    /\ starts_with_space s' = false /\ ends_with_space s' = false.

(** The error of a reference to a name the registry does not hold. *)
Definition reference_error (resources : Registry) (e : Exn) : Prop :=
  exists name,
    dict_has resources name = false
    /\ e = ValueError ("Referenced resource '" ++ name ++ "' not found.").

(** The error of the attribute fallback on a handle of the registry that
    has no generic accessor. *)
Definition accessor_error (resources : Registry) (e : Exn) : Prop :=
  e = AttributeError "get_string"
  /\ exists k h, dict_get resources k = Some h /\ h_get_string h = None.

(** Every handle of the registry has the generic accessor. *)
Definition has_accessors (resources : Registry) : Prop :=
  forall k h, dict_get resources k = Some h -> h_get_string h <> None.

(** A value none of whose strings starts with [secret:] or [ref:]. *)
Fixpoint marker_free (v : Value) : bool :=
  match v with
  | VStr s => negb (startswith s "secret:") && negb (startswith s "ref:")
  | VList l => forallb marker_free l
  | VDict d => forallb (fun kv => marker_free (snd kv)) d
  | _ => true
  end.

(** A value one of whose strings is a [ref:] marker that names a resource
    the registry does not hold. *)
Fixpoint dangling (resources : Registry) (v : Value) : bool :=
  match v with
  | VStr s =>
      negb (startswith s "secret:") && startswith s "ref:"
      && negb (dict_has resources (fst (parse_ref (slice_from 4 s))))
  | VList l => existsb (dangling resources) l
  | VDict d => existsb (fun kv => dangling resources (snd kv)) d
  | _ => false
  end.

Definition dangling_args (resources : Registry) (args : Dict) : bool :=
  existsb (fun kv => dangling resources (snd kv)) args.

(** The value of an attribute on a handle: the property when the object
    has it, what the generic accessor gives otherwise. *)
Definition attribute_of (h : Handle) (attr : string) : option Value :=
  match h_getattr h attr with
  | Some v => Some v
  | None =>
      match h_get_string h with
      | Some get_string => Some (get_string attr)
      | None => None
      end
  end.

(** The module the service table gives a service. *)
Definition module_of (service : string) : string :=
  match dict_get service_map (lower service) with
  | Some m => m
  | None => lower service
  end.

(** The two inner loops of [resolve_value], named. *)
Definition resolve_items (resources : Registry)
  : list (string * Value) -> M Dict :=
  fix items (es : list (string * Value)) : M Dict :=
    match es with
    | [] => ret []
    | (k, v) :: t =>
        v' <- resolve_value v resources ;;
        t' <- items t ;;
        ret ((k, v') :: t')
    end.

Definition resolve_elems (resources : Registry)
  : list Value -> M (list Value) :=
  fix elems (xs : list Value) : M (list Value) :=
    match xs with
    | [] => ret []
    | x :: t =>
        x' <- resolve_value x resources ;;
        t' <- elems t ;;
        ret (x' :: t')
    end.

(** ** Concrete configurations and a concrete backend *)

(** The configuration of [example.py], without its resources. *)
Definition example_config : Config :=
  {| scalars := [("team", "Demo"); ("service", "example");
                 ("environment", "dev"); ("region", "us-east-1")];
     tags := [("Owner", VStr "example-user");
              ("Project", VStr "TerraformExample")];
     aws_resources := [] |}.

(** A handle whose attributes are Terraform tokens. *)
Definition token_handle (id : string) : Handle :=
  {| h_getattr := fun attr =>
       if String.eqb attr "id" then Some (VStr ("${" ++ id ++ ".id}"))
       else None;
     h_get_string := Some (fun attr => VStr ("${" ++ id ++ "." ++ attr ++ "}")) |}.

Definition token_ctor : Ctor := fun id _ => inr (token_handle id).

(** A [TerraformOutput] as the constructs of a scope are: the call raises
    when the id already names a construct of the stack. *)
Definition scope_output : OutputCtor := fun scope id _ =>
  if existsb (String.eqb id) (map construct_id scope)
  then Some (BackendError
               ("There is already a Construct with name '" ++ id ++ "'"))
  else None.

(** A backend with the modules [vpc], [subnet] and [s3_bucket]. *)
Definition demo_imports : Imports := fun path =>
  if String.eqb path "imports.aws.vpc" then
    Some (fun cls => if String.eqb cls "Vpc" then Some token_ctor else None)
  else if String.eqb path "imports.aws.subnet" then
    Some (fun cls => if String.eqb cls "Subnet" then Some token_ctor else None)
  else if String.eqb path "imports.aws.s3_bucket" then
    Some (fun cls => if String.eqb cls "S3Bucket" then Some token_ctor else None)
  else None.

Definition decl_one : AWSResource :=
  {| res_name := "vpc-one"; res_type := "vpc.Vpc";
     res_args := [("cidr_block", VStr "10.0.0.0/16")];
     res_custom_name := None |}.

Definition decl_two : AWSResource :=
  {| res_name := "subnet-two"; res_type := "subnet.Subnet";
     res_args := [("vpc_id", VStr "ref:missing.id");
                  ("cidr_block", VStr "10.0.1.0/24")];
     res_custom_name := None |}.

Definition decl_three : AWSResource :=
  {| res_name := "bucket-three"; res_type := "s3_bucket.S3Bucket";
     res_args := [("bucket", VStr "demo-bucket")];
     res_custom_name := None |}.

Definition with_resources (c : Config) (rs : list AWSResource) : Config :=
  {| scalars := scalars c; tags := tags c; aws_resources := rs |}.

(** Three declarations, the second of which refers to a resource that is
    never declared. *)
Definition three_config : Config :=
  with_resources example_config [decl_one; decl_two; decl_three].

(** As [decl_two], of a type the backend does not have. *)
Definition decl_unknown : AWSResource :=
  {| res_name := "widget-two"; res_type := "foo.Widget";
     res_args := []; res_custom_name := None |}.

(** The first resource of [example.py] without its explicit tags, and the
    same with a custom name. *)
Definition decl_vpc : AWSResource :=
  {| res_name := "vpc-example"; res_type := "vpc.Vpc";
     res_args := [("cidr_block", VStr "10.0.0.0/16")];
     res_custom_name := None |}.

Definition decl_vpc_custom : AWSResource :=
  {| res_name := "vpc-example"; res_type := "vpc.Vpc";
     res_args := [("cidr_block", VStr "10.0.0.0/16")];
     res_custom_name := Some "my-vpc" |}.

(** The ids of the resource constructs of a stack. *)
Definition resource_ids (b : Builder) : list string :=
  flat_map (fun c => match c with
                     | Resource _ _ id _ => [id]
                     | _ => []
                     end) (stack b).

(** The configuration of [example.py] with whitespace around the team,
    the service and the environment. *)
Definition padded_config : Config :=
  {| scalars := [("team", "  Demo "); ("service", "example" ++ String "009" "");
                 ("environment", String "010" " dev  ");
                 ("region", "us-east-1")];
     tags := [];
     aws_resources := [] |}.

(** A configuration without the [region] key. *)
Definition no_region_config : Config :=
  {| scalars := [("team", "Demo"); ("service", "example");
                 ("environment", "dev")];
     tags := [];
     aws_resources := [decl_one] |}.

(** ** Data source lookups ([to_snake_case], [get_lookup_params]) *)

(** The character class [[A-Z]] of the pattern. *)
Definition is_capital (c : ascii) : bool :=
  let n := N_of_ascii c in ((65 <=? n) && (n <=? 90))%N.

(** The substitution of [to_snake_case] behind the first character: the
    pattern matches the empty string before every [A-Z]. *)
Fixpoint underscore_capitals (s : string) : string :=
  match s with
  | EmptyString => EmptyString
  | String c t =>
      if is_capital c then String "_" (String c (underscore_capitals t))
      else String c (underscore_capitals t)
  end.

(** [re.sub(r'(?<!^)(?=[A-Z])', '_', name).lower()]: the lookbehind keeps
    the start of the string out. *)
Definition to_snake_case (name : string) : string :=
  lower (match name with
         | EmptyString => EmptyString
         | String c t => String c (underscore_capitals t)
         end).

(** The loop of [get_lookup_params] from the dictionary built so far;
    [required_params] is the set in the order the loop meets it. *)
Fixpoint get_lookup_params_from (lookup_params : Dict)
    (required_params : list string) (resolved_args : Dict) : Dict :=
  match required_params with
  | [] => lookup_params
  | param :: rest =>
      let snake_key := to_snake_case param in
      let lookup_params :=
        match dict_get resolved_args snake_key with
        | Some v => dict_set lookup_params param v
        | None =>
            match dict_get resolved_args param with
            | Some v => dict_set lookup_params param v
            | None => lookup_params
            end
        end in
      get_lookup_params_from lookup_params rest resolved_args
  end.

Definition get_lookup_params (required_params : list string)
    (resolved_args : Dict) : Dict :=
  get_lookup_params_from [] required_params resolved_args.

(** A string without a character of [[A-Z]]. *)
Fixpoint no_capitals (s : string) : bool :=
  match s with
  | EmptyString => true
  | String c t => negb (is_capital c) && no_capitals t
  end.

(** What the arguments hold for a parameter: under its snake case key
    first, under its own name otherwise. *)
Definition lookup_value (resolved_args : Dict) (param : string)
  : option Value :=
  match dict_get resolved_args (to_snake_case param) with
  | Some v => Some v
  | None => dict_get resolved_args param
  end.

(** ** Further predicates *)

(** A value none of whose strings is read as a reference. *)
Fixpoint ref_free (v : Value) : bool :=
  match v with
  | VStr s => startswith s "secret:" || negb (startswith s "ref:")
  | VList l => forallb ref_free l
  | VDict d => forallb (fun kv => ref_free (snd kv)) d
  | _ => true
  end.

(** Every name of the first registry is held by the second, with the same
    handle. *)
Definition extends (resources resources' : Registry) : Prop :=
  forall k h, dict_get resources k = Some h -> dict_get resources' k = Some h.

(** The outputs the export loop makes of a registry when no call of
    [TerraformOutput] raises. *)
Definition exported (items : Registry) : list (string * Value) :=
  flat_map (fun kv => match h_getattr (snd kv) "id" with
                      | Some v => [("output_" ++ fst kv, v)]
                      | None => []
                      end) items.

(** The declarations that have been reported as skipped. *)
Definition skipped (b : Builder) : list string :=
  flat_map (fun ev => match ev with
                      | ErrorCreating name _ _ => [name]
                      | _ => []
                      end) (stdout b).

(** The configuration of [example.py]. *)
Definition example_stack_config : Config :=
  with_resources example_config
    [ {| res_name := "vpc-example"; res_type := "vpc.Vpc";
         res_args := [("cidr_block", VStr "10.0.0.0/16");
                      ("tags", VDict [("Name", VStr "example-vpc")])];
         res_custom_name := None |};
      {| res_name := "subnet-example"; res_type := "subnet.Subnet";
         res_args := [("vpc_id", VStr "ref:vpc-example.id");
                      ("cidr_block", VStr "10.0.1.0/24");
                      ("availability_zone", VStr "us-east-1a");
                      ("tags", VDict [("Name", VStr "example-subnet")])];
         res_custom_name := None |} ].

(** The [existing] mark of a declaration, as [args.pop("existing", False)]
    returns it. *)
Definition existing_flag (resource_cfg : AWSResource) : Value :=
  match dict_get (res_args resource_cfg) "existing" with
  | Some v => v
  | None => VBool false
  end.

(** A backend with the module [vpc] and its data source module. *)
Definition data_imports : Imports := fun path =>
  if String.eqb path "imports.aws.vpc" then
    Some (fun cls => if String.eqb cls "Vpc" then Some token_ctor else None)
  else if String.eqb path "imports.aws.vpc_data" then
    Some (fun cls => if String.eqb cls "VpcData" then Some token_ctor else None)
  else None.

(** The lookup of a VPC that exists. *)
Definition decl_existing : AWSResource :=
  {| res_name := "vpc-shared"; res_type := "vpc.Vpc";
     res_args := [("existing", VBool true); ("id", VStr "vpc-0abc")];
     res_custom_name := None |}.

(** A configuration with the [team] key only. *)
Definition team_only_config : Config :=
  {| scalars := [("team", "Demo")]; tags := []; aws_resources := [] |}.

(** A handle without the generic accessor. *)
Definition bare_handle : Handle :=
  {| h_getattr := fun attr =>
       if String.eqb attr "arn" then Some (VStr "arn:aws:s3:::demo")
       else None;
     h_get_string := None |}.

(** * Properties *)

(** ** Strings *)

Section StringFacts.

Lemma lower_char_idem (c : ascii) : lower_char (lower_char c) = lower_char c.
Proof. destruct c as [[] [] [] [] [] [] [] []]; reflexivity. Qed.

Lemma lower_idem (s : string) : lower (lower s) = lower s.
Proof.
  induction s as [|c s IH]; simpl; [reflexivity|].
  now rewrite lower_char_idem, IH.
Qed.

Lemma lower_app (a b : string) : lower (a ++ b) = lower a ++ lower b.
Proof.
  induction a as [|c a IH]; simpl; [reflexivity|]. now rewrite IH.
Qed.

Lemma lower_char_dot (c : ascii) :
  Ascii.eqb (lower_char c) "." = Ascii.eqb c ".".
Proof. destruct c as [[] [] [] [] [] [] [] []]; reflexivity. Qed.

Lemma prefix_refl (s : string) : String.prefix s s = true.
Proof.
  induction s as [|c s IH]; simpl; [reflexivity|].
  destruct (ascii_dec c c) as [_|n]; [exact IH|now elim n].
Qed.

Lemma contains_unfold (sub s : string) :
  contains sub s
  = if String.prefix sub s then true
    else match s with
         | EmptyString => false
         | String _ t => contains sub t
         end.
Proof. destruct s; reflexivity. Qed.

Lemma contains_refl (s : string) : contains s s = true.
Proof. rewrite contains_unfold, prefix_refl. reflexivity. Qed.

(** [c in s] for a one character needle looks at the head, then at the
    tail. *)
Lemma contains_char_cons (sep c : ascii) (t : string) :
  contains (String sep "") (String c t)
  = Ascii.eqb c sep || contains (String sep "") t.
Proof.
  simpl. destruct (ascii_dec sep c) as [->|n].
  - rewrite Ascii.eqb_refl. now destruct t.
  - destruct (Ascii.eqb_spec c sep) as [->|_]; [now elim n|reflexivity].
Qed.

Lemma contains_char_nil (sep : ascii) : contains (String sep "") "" = false.
Proof. reflexivity. Qed.

Lemma contains_char_app (sep : ascii) (a b : string) :
  contains (String sep "") (a ++ String sep b) = true.
Proof.
  induction a as [|c a IH].
  - change ("" ++ String sep b) with (String sep b).
    rewrite contains_char_cons, Ascii.eqb_refl. reflexivity.
  - change (String c a ++ String sep b) with (String c (a ++ String sep b)).
    rewrite contains_char_cons, IH. apply orb_true_r.
Qed.

Lemma split_once_app (sep : ascii) (a b : string) :
  contains (String sep "") a = false ->
  split_once sep (a ++ String sep b) = (a, b).
Proof.
  induction a as [|c a IH]; intros H.
  - simpl. now rewrite Ascii.eqb_refl.
  - rewrite contains_char_cons in H. apply orb_false_elim in H as [Hc Ha].
    simpl. rewrite Hc, (IH Ha). reflexivity.
Qed.

Lemma split_once_none (sep : ascii) (a : string) :
  contains (String sep "") a = false -> split_once sep a = (a, "").
Proof.
  induction a as [|c a IH]; intros H; [reflexivity|].
  rewrite contains_char_cons in H. apply orb_false_elim in H as [Hc Ha].
  simpl. rewrite Hc, (IH Ha). reflexivity.
Qed.

Lemma contains_dot_lower (s : string) :
  contains "." (lower s) = contains "." s.
Proof.
  induction s as [|c s IH]; [reflexivity|].
  change (lower (String c s)) with (String (lower_char c) (lower s)).
  now rewrite !contains_char_cons, lower_char_dot, IH.
Qed.

Lemma string_app_assoc (a b c : string) : (a ++ b) ++ c = a ++ b ++ c.
Proof. induction a as [|x a IH]; simpl; [reflexivity|now rewrite IH]. Qed.

End StringFacts.

(** ** Dictionaries *)

Section DictFacts.
Context {V : Type}.
Implicit Types (d : list (string * V)) (k : string) (v : V).

Lemma dict_get_app_absent d k v :
  dict_get d k = None -> dict_get (d ++ [(k, v)]) k = Some v.
Proof.
  induction d as [|[k' v'] d IH]; simpl.
  - now rewrite String.eqb_refl.
  - destruct (String.eqb k' k); [discriminate|exact IH].
Qed.

Lemma dict_get_app_other d k k' v :
  String.eqb k' k = false -> dict_get (d ++ [(k', v)]) k = dict_get d k.
Proof.
  intros Hk. induction d as [|[k0 v0] d IH]; simpl.
  - now rewrite Hk.
  - now rewrite IH.
Qed.

Lemma dict_get_set_same d k v : dict_get (dict_set d k v) k = Some v.
Proof.
  induction d as [|[k' v'] d IH]; simpl.
  - now rewrite String.eqb_refl.
  - destruct (String.eqb k' k) eqn:E; simpl; rewrite E; [reflexivity|exact IH].
Qed.

Lemma dict_get_set_other d k k' v :
  String.eqb k' k = false -> dict_get (dict_set d k' v) k = dict_get d k.
Proof.
  intros Hk. induction d as [|[k0 v0] d IH]; simpl.
  - now rewrite Hk.
  - destruct (String.eqb k0 k') eqn:E; simpl.
    + apply String.eqb_eq in E. subst k0. now rewrite Hk.
    + now rewrite IH.
Qed.

End DictFacts.

(** ** The monad *)

Lemma bind_ret_l {A B} (a : A) (k : A -> M B) : bind (ret a) k = k a.
Proof. unfold bind, ret. now destruct (k a). Qed.

Lemma bind_raised {A B} (w : list Event) (e : Exn) (k : A -> M B) :
  bind (w, inl e) k = (w, inl e).
Proof. reflexivity. Qed.

Lemma bind_fails {A B} (m : M A) (k : A -> M B) (e : Exn) :
  snd m = inl e -> snd (bind m k) = inl e.
Proof.
  destruct m as [w [e'|a]]; intros H; simpl in *; [congruence|discriminate].
Qed.

(** A bind raises when its first part raises or its second does. *)
Lemma bind_raises {A B} (m : M A) (k : A -> M B) :
  (exists e, snd m = inl e) \/ (forall a, exists e, snd (k a) = inl e) ->
  exists e, snd (bind m k) = inl e.
Proof.
  destruct m as [w [e'|a]]; simpl.
  - intros _. now exists e'.
  - intros [[e He]|Hk]; [discriminate|].
    destruct (Hk a) as [e He]. destruct (k a) as [w' r]. simpl in *. now exists e.
Qed.

Lemma bind_inr {A B} (m : M A) (k : A -> M B) (w : list Event) (b : B) :
  bind m k = (w, inr b) ->
  exists w1 a w2,
    m = (w1, inr a) /\ k a = (w2, inr b) /\ w = (w1 ++ w2)%list.
Proof.
  destruct m as [w1 [e|a]]; cbn [bind]; [discriminate|].
  destruct (k a) as [w2 r] eqn:Hk. intros [= <- ->].
  now exists w1, a, w2.
Qed.

Lemma bind_inl {A B} (m : M A) (k : A -> M B) (e : Exn) :
  snd (bind m k) = inl e ->
  snd m = inl e \/ exists w a, m = (w, inr a) /\ snd (k a) = inl e.
Proof.
  destruct m as [w1 [e'|a]]; cbn [bind snd].
  - intros [= ->]. now left.
  - destruct (k a) as [w2 r] eqn:Hk. cbn [snd]. intros ->.
    right. exists w1, a. now rewrite Hk.
Qed.

Lemma bind_ok {A B} (m : M A) (k : A -> M B) (w1 w2 : list Event)
    (a : A) (b : B) :
  m = (w1, inr a) -> k a = (w2, inr b) -> bind m k = ((w1 ++ w2)%list, inr b).
Proof. intros -> Hk. cbn [bind]. now rewrite Hk. Qed.

(** ** Induction on the argument tree *)

Lemma Value_tree_ind (P : Value -> Prop)
    (HNone : P VNone) (HBool : forall b, P (VBool b))
    (HInt : forall z, P (VInt z)) (HStr : forall s, P (VStr s))
    (HList : forall l, Forall P l -> P (VList l))
    (HDict : forall d, Forall (fun kv => P (snd kv)) d -> P (VDict d)) :
  forall v, P v.
Proof.
  fix IH 1. intros [ | b | z | s | l | d ].
  - exact HNone.
  - apply HBool.
  - apply HInt.
  - apply HStr.
  - apply HList. induction l as [|x l IHl]; constructor; [apply IH|exact IHl].
  - apply HDict.
    induction d as [|[k x] d IHd]; constructor; [apply IH|exact IHd].
Qed.

Lemma resolve_value_list (resources : Registry) (l : list Value) :
  resolve_value (VList l) resources
  = (l' <- resolve_elems resources l ;; ret (VList l')).
Proof. reflexivity. Qed.

Lemma resolve_value_dict (resources : Registry) (d : list (string * Value)) :
  resolve_value (VDict d) resources
  = (d' <- resolve_items resources d ;; ret (VDict d')).
Proof. reflexivity. Qed.

(** ** The value resolver *)

Lemma parse_ref_dotted (A attr : string) :
  contains "." A = false -> parse_ref (A ++ "." ++ attr) = (A, attr).
Proof.
  intros HA. unfold parse_ref.
  change ("." ++ attr) with (String "." attr).
  now rewrite contains_char_app, split_once_app.
Qed.

Lemma parse_ref_plain (A : string) :
  contains "." A = false -> parse_ref A = (A, "id").
Proof. intros HA. unfold parse_ref. now rewrite HA. Qed.

(** A string that starts with [ref:] is read as a reference. *)
Lemma resolve_ref_text (resources : Registry) (ref_text : string) :
  resolve_value (VStr ("ref:" ++ ref_text)) resources
  = read_ref resources (fst (parse_ref ref_text)) (snd (parse_ref ref_text)).
Proof.
  change (resolve_value (VStr ("ref:" ++ ref_text)) resources)
    with (resolve_str ("ref:" ++ ref_text) resources).
  unfold resolve_str.
  change (startswith ("ref:" ++ ref_text) "secret:") with false.
  assert (E : startswith ("ref:" ++ ref_text) "ref:" = true)
    by (destruct ref_text; reflexivity).
  rewrite E.
  change (slice_from 4 ("ref:" ++ ref_text)) with ref_text.
  cbv iota. now destruct (parse_ref ref_text).
Qed.

(** C8: on an argument tree none of whose strings starts with [ref:] or
    [secret:], [resolve_value] returns the tree as it is, prints nothing
    and does not raise, whatever the registry holds. *)
Theorem resolve_value_marker_free :
  forall (v : Value) (resources : Registry),
    marker_free v = true -> resolve_value v resources = ([], inr v).
Proof.
  intros v resources.
  induction v as [ | b | z | s | l IHl | d IHd ] using Value_tree_ind;
    intros Hm; try reflexivity.
  - cbn [marker_free] in Hm.
    apply andb_true_iff in Hm as [H1 H2].
    apply negb_true_iff in H1, H2.
    change (resolve_value (VStr s) resources) with (resolve_str s resources).
    unfold resolve_str. now rewrite H1, H2.
  - change (forallb marker_free l = true) in Hm.
    rewrite resolve_value_list.
    assert (E : resolve_elems resources l = ret l).
    { induction IHl as [|x l Hx _ IH]; [reflexivity|].
      cbn [forallb] in Hm. apply andb_true_iff in Hm as [Hx' Hl'].
      cbn [resolve_elems]. rewrite (Hx Hx').
      change (([], inr x) : M Value) with (ret x). rewrite bind_ret_l.
      fold (resolve_elems resources). rewrite (IH Hl'). reflexivity. }
    now rewrite E.
  - change (forallb (fun kv => marker_free (snd kv)) d = true) in Hm.
    rewrite resolve_value_dict.
    assert (E : resolve_items resources d = ret d).
    { induction IHd as [|[k x] d Hx _ IH]; [reflexivity|].
      cbn [forallb snd] in Hm. apply andb_true_iff in Hm as [Hx' Hd'].
      cbn [resolve_items]. cbn [snd] in Hx. rewrite (Hx Hx').
      change (([], inr x) : M Value) with (ret x). rewrite bind_ret_l.
      fold (resolve_items resources). rewrite (IH Hd'). reflexivity. }
    now rewrite E.
Qed.

Lemma resolve_value_marker_free_witness :
  resolve_value
    (VDict [("cidr_block", VStr "10.0.0.0/16");
            ("tags", VDict [("Name", VStr "example-vpc")]);
            ("ports", VList [VInt 80; VBool true; VNone; VStr "reference"])])
    [("vpc-one", token_handle "vpc-one")]
  = ([], inr (VDict [("cidr_block", VStr "10.0.0.0/16");
                     ("tags", VDict [("Name", VStr "example-vpc")]);
                     ("ports", VList [VInt 80; VBool true; VNone;
                                      VStr "reference"])])).
Proof. apply resolve_value_marker_free. reflexivity. Defined.

(** What [read_ref] does, by the state of the registry and of the handle. *)
Lemma read_ref_absent (resources : Registry) (A attr : string) :
  dict_get resources A = None ->
  read_ref resources A attr
  = ([], inl (ValueError ("Referenced resource '" ++ A ++ "' not found."))).
Proof. intros H. unfold read_ref. now rewrite H. Qed.

Lemma read_ref_present (resources : Registry) (A attr : string) (h : Handle) :
  dict_get resources A = Some h ->
  snd (read_ref resources A attr)
  = match attribute_of h attr with
    | Some v => inr v
    | None => inl (AttributeError "get_string")
    end.
Proof.
  intros H. unfold read_ref, attribute_of. rewrite H.
  destruct (h_getattr h attr); [reflexivity|].
  destruct (h_get_string h); reflexivity.
Qed.

(** C4: [ref:A.attr] resolves to the value of [attr] on the handle of [A]
    when [A] is registered, and raises the reference error when it is not;
    it raises that error exactly when [A] is absent, and raises nothing
    else as long as the handle of [A] has the generic accessor every
    handle is to expose. *)
Theorem resolve_ref_attribute :
  forall (resources : Registry) (A attr : string),
    contains "." A = false ->
    let r := resolve_value (VStr ("ref:" ++ A ++ "." ++ attr)) resources in
    (forall h v, dict_get resources A = Some h ->
                 attribute_of h attr = Some v -> snd r = inr v)
    /\ (dict_get resources A = None ->
        r = ([], inl (ValueError
                        ("Referenced resource '" ++ A ++ "' not found."))))
    /\ ((exists msg, snd r = inl (ValueError msg))
        <-> dict_get resources A = None)
    /\ ((forall h, dict_get resources A = Some h -> h_get_string h <> None) ->
        ((exists e, snd r = inl e) <-> dict_get resources A = None)).
Proof.
  intros resources A attr HA r. subst r.
  rewrite resolve_ref_text, (parse_ref_dotted A attr HA). cbn [fst snd].
  repeat split.
  - intros h v Hh Hv. now rewrite (read_ref_present _ _ _ h Hh), Hv.
  - apply read_ref_absent.
  - intros [msg Hmsg]. destruct (dict_get resources A) as [h|] eqn:Hh;
      [|reflexivity].
    rewrite (read_ref_present _ _ _ h Hh) in Hmsg.
    destruct (attribute_of h attr); discriminate.
  - intros Hn. rewrite (read_ref_absent _ _ _ Hn). eexists. reflexivity.
  - intros [e He]. destruct (dict_get resources A) as [h|] eqn:Hh;
      [|reflexivity].
    rewrite (read_ref_present _ _ _ h Hh) in He.
    unfold attribute_of in He. destruct (h_getattr h attr); [discriminate|].
    destruct (h_get_string h) eqn:Hg; [discriminate|].
    now elim (H h eq_refl).
  - intros Hn. rewrite (read_ref_absent _ _ _ Hn). eexists. reflexivity.
Qed.

Lemma resolve_ref_attribute_witness :
  snd (resolve_value (VStr "ref:vpc-one.arn")
         [("vpc-one", token_handle "vpc-one")])
  = inr (VStr "${vpc-one.arn}")
  /\ snd (resolve_value (VStr "ref:subnet-two.arn")
            [("vpc-one", token_handle "vpc-one")])
     = inl (ValueError "Referenced resource 'subnet-two' not found.").
Proof.
  split.
  - exact (proj1 (resolve_ref_attribute [("vpc-one", token_handle "vpc-one")]
                    "vpc-one" "arn" eq_refl)
             (token_handle "vpc-one") (VStr "${vpc-one.arn}") eq_refl eq_refl).
  - exact (f_equal snd
             (proj1 (proj2 (resolve_ref_attribute
                              [("vpc-one", token_handle "vpc-one")]
                              "subnet-two" "arn" eq_refl)) eq_refl)).
Defined.

(** C5: when the text after [ref:] has no dot the attribute is [id], so
    [ref:A] resolves as [ref:A.id] does; only the first dot splits, so an
    attribute keeps its own dots. *)
Theorem resolve_ref_default_id :
  forall (resources : Registry) (A : string),
    contains "." A = false ->
    resolve_value (VStr ("ref:" ++ A)) resources
    = resolve_value (VStr ("ref:" ++ A ++ ".id")) resources
    /\ parse_ref A = (A, "id")
    /\ forall attr, parse_ref (A ++ "." ++ attr) = (A, attr).
Proof.
  intros resources A HA. split; [|split].
  - rewrite !resolve_ref_text.
    change (A ++ ".id") with (A ++ "." ++ "id").
    now rewrite (parse_ref_plain A HA), (parse_ref_dotted A "id" HA).
  - now apply parse_ref_plain.
  - intros attr. now apply parse_ref_dotted.
Qed.

Lemma resolve_ref_default_id_witness :
  resolve_value (VStr "ref:vpc-one") [("vpc-one", token_handle "vpc-one")]
  = resolve_value (VStr "ref:vpc-one.id") [("vpc-one", token_handle "vpc-one")]
  /\ parse_ref "vpc-one.outputs.arn" = ("vpc-one", "outputs.arn").
Proof.
  pose proof (resolve_ref_default_id [("vpc-one", token_handle "vpc-one")]
                "vpc-one" eq_refl) as [H1 [_ H3]].
  split; [exact H1|exact (H3 "outputs.arn")].
Defined.

(** ** The naming convention *)

Lemma dict_get_In {V : Type} (d : list (string * V)) (k : string) (v : V) :
  dict_get d k = Some v -> In (k, v) d.
Proof.
  induction d as [|[k' v'] d IH]; simpl; [discriminate|].
  destruct (String.eqb_spec k' k) as [->|_].
  - intros [= ->]. now left.
  - intros H. right. now apply IH.
Qed.

Lemma region_table_lower :
  Forall (fun kv => lower (snd kv) = snd kv) AWS_REGION_ABBREVIATIONS.
Proof. repeat constructor. Qed.

Lemma get_abbreviation_lower (region : string) :
  lower (get_abbreviation region) = get_abbreviation region.
Proof.
  unfold get_abbreviation.
  destruct (dict_get AWS_REGION_ABBREVIATIONS (lower region)) as [abbr|] eqn:E.
  - apply dict_get_In in E.
    exact (proj1 (Forall_forall _ _) region_table_lower _ E).
  - apply lower_idem.
Qed.

Lemma all_space_app (a b : string) :
  all_space a = true -> all_space b = true -> all_space (a ++ b) = true.
Proof.
  induction a as [|c a IH]; intros Ha Hb; [exact Hb|].
  cbn [all_space append] in *. apply andb_true_iff in Ha as [Hc Ha].
  now rewrite Hc, IH.
Qed.

(** [lstrip] takes the whitespace at the start away, and nothing else. *)
Lemma lstrip_spec (s : string) :
  exists l,
    s = l ++ lstrip s /\ all_space l = true
    /\ starts_with_space (lstrip s) = false.
Proof.
  induction s as [|c s [l [Hs [Hl Hstart]]]].
  - now exists "".
  - cbn [lstrip]. destruct (isspace c) eqn:Hc.
    + exists (String c l). cbn [append all_space]. rewrite Hc, Hl.
      repeat split; [now f_equal|exact Hstart].
    + exists "". repeat split. cbn [starts_with_space]. exact Hc.
Qed.

(** [rstrip] takes the whitespace at the end away, and nothing else. *)
Lemma rstrip_spec (s : string) :
  exists r,
    s = rstrip s ++ r /\ all_space r = true
    /\ ends_with_space (rstrip s) = false
    /\ (starts_with_space s = false -> starts_with_space (rstrip s) = false).
Proof.
  induction s as [|c s [r [Hs [Hr [Hend _]]]]].
  - exists "". now repeat split.
  - cbn [rstrip]. destruct (rstrip s) as [|c' t'] eqn:E.
    + cbn [append] in Hs. destruct (isspace c) eqn:Hc.
      * exists (String c r). split; [|split; [|split]].
        -- cbn [append]. now f_equal.
        -- cbn [all_space]. now rewrite Hc, Hr.
        -- reflexivity.
        -- intros _. reflexivity.
      * exists r. split; [|split; [|split]].
        -- cbn [append]. now f_equal.
        -- exact Hr.
        -- exact Hc.
        -- intros _. exact Hc.
    + exists r. split; [|split; [|split]].
      * cbn [append] in *. now f_equal.
      * exact Hr.
      * exact Hend.
      * intros H. exact H.
Qed.

(** [strip] trims. *)
Lemma strip_trims (s : string) : trims s (strip s).
Proof.
  unfold strip, trims.
  destruct (lstrip_spec s) as [l [Hs [Hl Hstart]]].
  destruct (rstrip_spec (lstrip s)) as [r [Hs' [Hr [Hend Hkeep]]]].
  exists l, r. split; [|split; [|split; [|split]]].
  - rewrite Hs at 1. now rewrite Hs' at 1.
  - exact Hl.
  - exact Hr.
  - now apply Hkeep.
  - exact Hend.
Qed.

Lemma dict_get_of_In {V : Type} (d : list (string * V)) (k : string) (v : V) :
  NoDup (map fst d) -> In (k, v) d -> dict_get d k = Some v.
Proof.
  induction d as [|[k' v'] d IH]; intros Hnd Hin; [now elim Hin|].
  cbn [map fst] in Hnd. inversion Hnd as [|? ? Hnin Hnd']. subst.
  cbn [dict_get]. destruct Hin as [[= -> ->]|Hin].
  - now rewrite String.eqb_refl.
  - destruct (String.eqb_spec k' k) as [->|_]; [|now apply IH].
    elim Hnin. change k with (fst (k, v)). now apply in_map.
Qed.

Lemma region_table_keys : NoDup (map fst AWS_REGION_ABBREVIATIONS).
Proof.
  repeat (constructor; [cbn; intuition discriminate|]). constructor.
Qed.

(** C6: the generated name is team, service, environment, region
    abbreviation and base name joined by hyphens, in lower case, where
    team, service and environment are the values of the configuration
    without the whitespace around them; the name is all in lower case; the
    abbreviation is the entry of the region table for the region in lower
    case or, for a region the table lacks, the text before the first
    hyphen (the whole region when it has none) in lower case. *)
Theorem generate_resource_name_composed :
  forall (config : Config) (base_name : string),
    let region := config_get config "region" "us-east-1" in
    (exists team service env,
        trims (config_get config "team" "team") team
        /\ trims (config_get config "service" "svc") service
        /\ trims (config_get config "environment" "dev") env
        /\ generate_resource_name config base_name
           = lower team ++ "-" ++ lower service ++ "-" ++ lower env ++ "-"
             ++ get_abbreviation region ++ "-" ++ lower base_name)
    /\ lower (generate_resource_name config base_name)
       = generate_resource_name config base_name
    /\ (forall abbr,
           In (lower region, abbr) AWS_REGION_ABBREVIATIONS ->
           get_abbreviation region = abbr)
    /\ ((forall abbr, ~ In (lower region, abbr) AWS_REGION_ABBREVIATIONS) ->
        (forall first rest,
            region = first ++ "-" ++ rest -> contains "-" first = false ->
            get_abbreviation region = lower first)
        /\ (contains "-" region = false ->
            get_abbreviation region = lower region))
    /\ generate_resource_name example_config "vpc-example"
       = "demo-example-dev-use1-vpc-example"
    /\ generate_resource_name padded_config "VPC-Example"
       = "demo-example-dev-use1-vpc-example"
    /\ get_abbreviation "us-east-1" = "use1"
    /\ get_abbreviation "foo-bar-1" = "foo".
Proof.
  intros config base_name region.
  split; [|split; [|split; [|split; [|repeat split]]]].
  - exists (strip (config_get config "team" "team")),
      (strip (config_get config "service" "svc")),
      (strip (config_get config "environment" "dev")).
    split; [apply strip_trims|]. split; [apply strip_trims|].
    split; [apply strip_trims|].
    unfold generate_resource_name. fold region.
    rewrite !lower_app, !lower_idem, get_abbreviation_lower. reflexivity.
  - unfold generate_resource_name. now rewrite lower_idem.
  - intros abbr Hin. unfold get_abbreviation.
    now rewrite (dict_get_of_In _ _ _ region_table_keys Hin).
  - intros Hnot.
    assert (Hnone : dict_get AWS_REGION_ABBREVIATIONS (lower region) = None).
    { destruct (dict_get AWS_REGION_ABBREVIATIONS (lower region)) as [abbr|]
        eqn:E; [|reflexivity].
      elim (Hnot abbr). now apply dict_get_In. }
    unfold get_abbreviation, first_field. rewrite Hnone. split.
    + intros first rest Hreg Hfirst. rewrite Hreg.
      change ("-" ++ rest) with (String "-" rest).
      now rewrite split_once_app.
    + intros Hno. now rewrite split_once_none.
Qed.

(** ** The resource type mapper *)

(** C7: a type tag is split at its first dot; the service before it is
    looked up in the service table in lower case and, when the table
    lacks it, is itself the module in lower case; the class after the dot
    is returned as it is. *)
Theorem map_resource_type_dotted :
  forall (service class_name : string),
    contains "." service = false ->
    _map_resource_type (service ++ "." ++ class_name)
    = (match dict_get service_map (lower service) with
       | Some m => m
       | None => lower service
       end, class_name)
    /\ (forall other,
           lower other = lower service ->
           _map_resource_type (other ++ "." ++ class_name)
           = _map_resource_type (service ++ "." ++ class_name))
    /\ _map_resource_type "s3.Bucket" = ("s3_bucket", "Bucket")
    /\ _map_resource_type "foo.Widget" = ("foo", "Widget").
Proof.
  assert (Hmap : forall s c, contains "." s = false ->
            _map_resource_type (s ++ "." ++ c)
            = (match dict_get service_map (lower s) with
               | Some m => m
               | None => lower s
               end, c)).
  { intros s c Hs. unfold _map_resource_type.
    change ("." ++ c) with (String "." c).
    now rewrite contains_char_app, split_once_app. }
  intros service class_name Hs. repeat split.
  - now apply Hmap.
  - intros other Ho.
    assert (Hother : contains "." other = false).
    { now rewrite <- contains_dot_lower, Ho, contains_dot_lower. }
    now rewrite (Hmap other class_name Hother), (Hmap service class_name Hs), Ho.
Qed.

Lemma map_resource_type_dotted_witness :
  _map_resource_type "S3.Bucket" = ("s3_bucket", "Bucket")
  /\ _map_resource_type "Foo.Widget.v2" = ("foo", "Widget.v2").
Proof.
  split.
  - exact (proj1 (map_resource_type_dotted "S3" "Bucket" eq_refl)).
  - exact (proj1 (map_resource_type_dotted "Foo" "Widget.v2" eq_refl)).
Defined.

(** C10: a type tag without a dot is the class name as it is, and its
    module is [instance]: the default service [ec2] goes through the
    service table like any other. *)
Theorem map_resource_type_dotless :
  forall (resource_type : string),
    contains "." resource_type = false ->
    _map_resource_type resource_type = ("instance", resource_type)
    /\ fst (_map_resource_type resource_type) <> "ec2".
Proof.
  intros resource_type H. unfold _map_resource_type. rewrite H.
  split; [reflexivity|discriminate].
Qed.

Lemma map_resource_type_dotless_witness :
  _map_resource_type "Vpc" = ("instance", "Vpc").
Proof. exact (proj1 (map_resource_type_dotless "Vpc" eq_refl)). Defined.

(** ** The tag policy *)

Lemma tag_supporting_resources_lower :
  Forall (fun t => lower t = t) tag_supporting_resources.
Proof. repeat constructor. Qed.

Lemma supports_tags_member (resource_type : string) :
  In (lower resource_type) tag_supporting_resources ->
  supports_tags resource_type = true.
Proof.
  intros Hin. unfold supports_tags. apply existsb_exists.
  exists (lower resource_type). split; [exact Hin|].
  rewrite lower_idem. apply contains_refl.
Qed.

(** C3: for a type of the tag capable set and non-empty context tags,
    arguments without a [tags] key get one that holds the context tags,
    after the keys they have; arguments with a [tags] key are left as
    they are. *)
Theorem apply_common_parameters_tags :
  forall (config : Config) (resolved_args : Dict) (resource_type : string),
    In (lower resource_type) tag_supporting_resources ->
    tags config <> [] ->
    (dict_get resolved_args "tags" = None ->
     _apply_common_parameters config resolved_args resource_type
     = (resolved_args ++ [("tags", VDict (tags config))])%list
     /\ dict_get (_apply_common_parameters config resolved_args resource_type)
          "tags" = Some (VDict (tags config)))
    /\ (forall explicit,
           dict_get resolved_args "tags" = Some explicit ->
           _apply_common_parameters config resolved_args resource_type
           = resolved_args
           /\ dict_get
                (_apply_common_parameters config resolved_args resource_type)
                "tags" = Some explicit).
Proof.
  intros config resolved_args resource_type Hin Htags.
  unfold _apply_common_parameters.
  rewrite (supports_tags_member _ Hin).
  assert (Ht : truthy (VDict (tags config)) = true).
  { simpl. destruct (tags config); [now elim Htags|reflexivity]. }
  rewrite Ht. unfold dict_setdefault, dict_has. split.
  - intros Hnone. rewrite Hnone. split; [reflexivity|].
    now apply dict_get_app_absent.
  - intros explicit Hsome. rewrite Hsome. split; [reflexivity|exact Hsome].
Qed.

Lemma apply_common_parameters_tags_witness :
  _apply_common_parameters
    {| scalars := []; tags := [("Owner", VStr "x")]; aws_resources := [] |}
    [("bucket", VStr "b")] "s3_bucket.S3Bucket"
  = [("bucket", VStr "b"); ("tags", VDict [("Owner", VStr "x")])]
  /\ _apply_common_parameters
       {| scalars := []; tags := [("Owner", VStr "x")]; aws_resources := [] |}
       [("tags", VDict [("Team", VStr "y")]); ("bucket", VStr "b")]
       "s3_bucket.S3Bucket"
     = [("tags", VDict [("Team", VStr "y")]); ("bucket", VStr "b")].
Proof.
  assert (Hin : In (lower "s3_bucket.S3Bucket") tag_supporting_resources)
    by (left; reflexivity).
  assert (Hne : [("Owner", VStr "x")] <> ([] : Dict)) by discriminate.
  split.
  - exact (proj1 (proj1 (apply_common_parameters_tags
                           {| scalars := []; tags := [("Owner", VStr "x")];
                              aws_resources := [] |}
                           [("bucket", VStr "b")] "s3_bucket.S3Bucket"
                           Hin Hne) eq_refl)).
  - exact (proj1 (proj2 (apply_common_parameters_tags
                           {| scalars := []; tags := [("Owner", VStr "x")];
                              aws_resources := [] |}
                           [("tags", VDict [("Team", VStr "y")]);
                            ("bucket", VStr "b")] "s3_bucket.S3Bucket"
                           Hin Hne) (VDict [("Team", VStr "y")]) eq_refl)).
Defined.

(** ** Loading the configuration *)

Lemma check_keys_present (keys : list string) (document : Config) :
  (forall key, In key keys -> dict_has (scalars document) key = true) ->
  check_keys keys document = inr document.
Proof.
  induction keys as [|k keys IH]; intros H; [reflexivity|].
  cbn [check_keys]. rewrite (H k (or_introl eq_refl)). cbn [negb].
  apply IH. intros key Hk. apply H. now right.
Qed.

Lemma check_keys_missing (keys : list string) (document : Config) :
  (exists key, In key keys /\ dict_has (scalars document) key = false) ->
  exists key,
    In key keys /\ dict_has (scalars document) key = false
    /\ check_keys keys document
       = inl (ValueError ("Missing required configuration key: " ++ key)).
Proof.
  induction keys as [|k keys IH]; intros [key [Hin Hmiss]]; [now elim Hin|].
  cbn [check_keys].
  destruct (dict_has (scalars document) k) eqn:Hk; cbn [negb].
  - destruct Hin as [->|Hin]; [congruence|].
    destruct IH as [key' [Hin' [Hmiss' Hc]]]; [now exists key|].
    exists key'. repeat split; [now right|assumption|assumption].
  - exists k. repeat split; [now left|assumption].
Qed.

(** C9: [load_config] returns the document when the four required keys
    are present, and only then; when one is missing it raises the
    configuration error that names the first missing key, and the stack
    raises it again with no builder made: nothing is printed but that
    error, whatever the backend and the declarations are. *)
Theorem load_config_required_keys :
  forall (document : Config),
    (load_config document = inr document
     <-> forall key, In key required_keys ->
                     dict_has (scalars document) key = true)
    /\ ((exists key, In key required_keys
                     /\ dict_has (scalars document) key = false) ->
        exists key,
          In key required_keys /\ dict_has (scalars document) key = false
          /\ load_config document
             = inl (ValueError ("Missing required configuration key: " ++ key))
          /\ forall imports terraform_output,
              AwsClassicStack imports terraform_output document
              = ([ErrorInStack
                    (ValueError ("Missing required configuration key: "
                                 ++ key))],
                 inl (ValueError ("Missing required configuration key: "
                                  ++ key)))).
Proof.
  intros document. split; [split|].
  - intros Hok key Hin.
    destruct (dict_has (scalars document) key) eqn:Hk; [reflexivity|].
    destruct (check_keys_missing required_keys document) as [k [_ [_ Hc]]];
      [now exists key|].
    unfold load_config in Hok. congruence.
  - apply check_keys_present.
  - intros Hmiss.
    destruct (check_keys_missing required_keys document Hmiss)
      as [key [Hin [Hk Hc]]].
    exists key. repeat split; try assumption.
    intros imports terraform_output. unfold AwsClassicStack, load_config.
    now rewrite Hc.
Qed.

Lemma load_config_required_keys_witness :
  load_config example_config = inr example_config
  /\ exists key,
      In key required_keys
      /\ AwsClassicStack demo_imports scope_output no_region_config
         = ([ErrorInStack
               (ValueError ("Missing required configuration key: " ++ key))],
            inl (ValueError ("Missing required configuration key: " ++ key))).
Proof.
  split.
  - apply (proj2 (proj1 (load_config_required_keys example_config))).
    intros key [<-|[<-|[<-|[<-|[]]]]]; reflexivity.
  - destruct (proj2 (load_config_required_keys no_region_config))
      as [key [Hin [_ [_ Hstack]]]].
    + exists "region". split; [simpl; tauto|reflexivity].
    + exists key. split; [exact Hin|apply Hstack].
Defined.

(** ** The builder *)

Lemma resolve_str_dangling (resources : Registry) (s : string) :
  dangling resources (VStr s) = true ->
  exists e, snd (resolve_str s resources) = inl e.
Proof.
  cbn [dangling]. intros H.
  apply andb_true_iff in H as [H Hget].
  apply andb_true_iff in H as [Hsec Href].
  apply negb_true_iff in Hsec, Hget.
  unfold resolve_str. rewrite Hsec, Href.
  destruct (parse_ref (slice_from 4 s)) as [ref_res ref_attr].
  cbn [fst] in Hget. unfold dict_has in Hget. unfold read_ref.
  destruct (dict_get resources ref_res); [discriminate|].
  eexists. reflexivity.
Qed.

(** A tree with a dangling reference does not resolve. *)
Lemma resolve_value_dangling (resources : Registry) (v : Value) :
  dangling resources v = true ->
  exists e, snd (resolve_value v resources) = inl e.
Proof.
  induction v as [ | b | z | s | l IHl | d IHd ] using Value_tree_ind;
    intros Hd; try discriminate.
  - now apply resolve_str_dangling.
  - change (existsb (dangling resources) l = true) in Hd.
    rewrite resolve_value_list. apply bind_raises. left.
    induction IHl as [|x l Hx _ IH]; [discriminate|].
    cbn [existsb] in Hd. cbn [resolve_elems]. apply bind_raises.
    apply orb_true_iff in Hd as [Hd|Hd]; [left; now apply Hx|].
    right. intros r. apply bind_raises. left. now apply IH.
  - change (existsb (fun kv => dangling resources (snd kv)) d = true) in Hd.
    rewrite resolve_value_dict. apply bind_raises. left.
    induction IHd as [|[k x] d Hx _ IH]; [discriminate|].
    cbn [existsb snd] in Hd. cbn [resolve_items]. cbn [snd] in Hx.
    apply bind_raises.
    apply orb_true_iff in Hd as [Hd|Hd]; [left; now apply Hx|].
    right. intros r. apply bind_raises. left. now apply IH.
Qed.

Lemma resolve_args_dangling (resources : Registry) (args : Dict) :
  dangling_args resources args = true ->
  exists e, snd (resolve_args args resources) = inl e.
Proof.
  unfold dangling_args.
  induction args as [|[k x] args IH]; intros Hd; [discriminate|].
  cbn [existsb snd] in Hd. cbn [resolve_args]. apply bind_raises.
  apply orb_true_iff in Hd as [Hd|Hd];
    [left; now apply resolve_value_dangling|].
  right. intros r. apply bind_raises. left. now apply IH.
Qed.

Lemma build_loop_app (imports : Imports) (b : Builder)
    (pre rest : list AWSResource) :
  build_loop imports b (pre ++ rest)
  = match build_loop imports b pre with
    | (b1, Normal) => build_loop imports b1 rest
    | (b1, Raised e) => (b1, Raised e)
    end.
Proof.
  revert b. induction pre as [|rc pre IH]; intros b; [reflexivity|].
  cbn [app build_loop].
  destruct (build_one imports b rc) as [b' [|e]]; [apply IH|reflexivity].
Qed.

(** What [materialize] adds to the stack is a resource whose construct id
    is the name of the declaration. *)
Lemma materialize_construct (imports : Imports) (b : Builder)
    (name resource_type : string) (custom_name : option string)
    (is_existing : Value) (resolved_args : Dict)
    (h : Handle) (c : Construct) (ev : Event) :
  materialize imports b name resource_type custom_name is_existing
    resolved_args = inr (h, c, ev) ->
  exists path cls kwargs, c = Resource path cls name kwargs.
Proof.
  unfold materialize.
  destruct (_map_resource_type resource_type) as [module_name class_name].
  destruct (import_class imports _ class_name) as [e|ResourceClass];
    [discriminate|].
  destruct (truthy is_existing).
  - destruct (import_class imports _ _) as [e|DataClass]; [discriminate|].
    destruct (DataClass name _) as [e|h']; [discriminate|].
    intros [= _ <- _]. now eexists _, _, _.
  - destruct (ResourceClass name _) as [e|h']; [discriminate|].
    intros [= _ <- _]. now eexists _, _, _.
Qed.

Lemma build_one_outputs (imports : Imports) (b : Builder) (rc : AWSResource) :
  outputs (fst (build_one imports b rc)) = outputs b.
Proof.
  unfold build_one.
  destruct (resolve_args _ (resources b)) as [w [e|resolved_args]];
    [reflexivity|].
  destruct (materialize imports _ _ _ _ _ resolved_args)
    as [e|[[h c] ev]] eqn:E.
  - destruct (caught e); reflexivity.
  - apply materialize_construct in E as [path [cls [kwargs ->]]].
    unfold outputs, register. cbn [stack fst say].
    rewrite flat_map_app. cbn [flat_map]. now rewrite !app_nil_r.
Qed.

Lemma build_loop_outputs (imports : Imports) (rcs : list AWSResource) :
  forall b, outputs (fst (build_loop imports b rcs)) = outputs b.
Proof.
  induction rcs as [|rc rcs IH]; intros b; [reflexivity|].
  cbn [build_loop]. pose proof (build_one_outputs imports b rc) as H1.
  destruct (build_one imports b rc) as [b' [|e]]; cbn [fst] in *.
  - now rewrite IH.
  - exact H1.
Qed.

Lemma import_class_caught (imports : Imports) (path cls : string) (e : Exn) :
  import_class imports path cls = inl e -> caught e = true.
Proof.
  unfold import_class. destruct (imports path) as [m|].
  - destruct (m cls); [discriminate|]. now intros [= <-].
  - now intros [= <-].
Qed.

(** What the resolver raises: the reference error, or the error of the
    attribute fallback on a handle without the generic accessor. *)
Lemma resolve_str_error (resources : Registry) (s : string) (e : Exn) :
  snd (resolve_str s resources) = inl e ->
  reference_error resources e \/ accessor_error resources e.
Proof.
  unfold resolve_str.
  destruct (startswith s "secret:"); [discriminate|].
  destruct (startswith s "ref:"); [|discriminate].
  destruct (parse_ref (slice_from 4 s)) as [ref_res ref_attr].
  unfold read_ref.
  destruct (dict_get resources ref_res) as [h|] eqn:Hh.
  - destruct (h_getattr h ref_attr); [discriminate|].
    destruct (h_get_string h) eqn:Hg; [discriminate|].
    intros [= <-]. right. split; [reflexivity|]. now exists ref_res, h.
  - intros [= <-]. left. exists ref_res. split; [|reflexivity].
    unfold dict_has. now rewrite Hh.
Qed.

Lemma resolve_value_error (resources : Registry) (v : Value) :
  forall e,
    snd (resolve_value v resources) = inl e ->
    reference_error resources e \/ accessor_error resources e.
Proof.
  induction v as [ | b | z | s | l IHl | d IHd ] using Value_tree_ind;
    intros e H; try discriminate.
  - now apply (resolve_str_error resources s e).
  - rewrite resolve_value_list in H.
    apply bind_inl in H as [H|[w [a [_ H]]]]; [|discriminate].
    revert e H. induction IHl as [|x l Hx _ IH]; intros e H; [discriminate|].
    cbn [resolve_elems] in H.
    apply bind_inl in H as [H|[w [a [_ H]]]]; [now apply (Hx e)|].
    apply bind_inl in H as [H|[w' [a' [_ H]]]]; [|discriminate].
    now apply (IH e).
  - rewrite resolve_value_dict in H.
    apply bind_inl in H as [H|[w [a [_ H]]]]; [|discriminate].
    revert e H. induction IHd as [|[k x] d Hx _ IH]; intros e H;
      [discriminate|].
    cbn [resolve_items] in H. cbn [snd] in Hx.
    apply bind_inl in H as [H|[w [a [_ H]]]]; [now apply (Hx e)|].
    apply bind_inl in H as [H|[w' [a' [_ H]]]]; [|discriminate].
    now apply (IH e).
Qed.

Lemma resolve_args_error (resources : Registry) (args : Dict) :
  forall e,
    snd (resolve_args args resources) = inl e ->
    reference_error resources e \/ accessor_error resources e.
Proof.
  induction args as [|[k x] args IH]; intros e H; [discriminate|].
  cbn [resolve_args] in H.
  apply bind_inl in H as [H|[w [a [_ H]]]];
    [now apply (resolve_value_error resources x e)|].
  apply bind_inl in H as [H|[w' [a' [_ H]]]]; [|discriminate].
  now apply (IH e).
Qed.

(** A declaration whose arguments do not resolve ends the loop. *)
Lemma build_one_dangling (imports : Imports) (b : Builder) (d : AWSResource) :
  dangling_args (resources b) (dict_remove (res_args d) "existing") = true ->
  exists w e,
    build_one imports b d = (say b w, Raised e)
    /\ (reference_error (resources b) e \/ accessor_error (resources b) e).
Proof.
  intros Hd. apply resolve_args_dangling in Hd as [e He].
  pose proof (resolve_args_error (resources b)
                (dict_remove (res_args d) "existing")) as Herr.
  unfold build_one.
  destruct (resolve_args _ (resources b)) as [w [e'|resolved_args]];
    [|discriminate].
  exists w, e'. split; [reflexivity|]. now apply Herr.
Qed.

(** C1, as the code has it: a declaration whose arguments, the [existing]
    mark apart, have a [ref:] marker that names a resource absent from
    the registry makes [build] raise.  The declarations before it stay as
    they were processed, no declaration after it is processed and no
    output is exported.  What is raised is the reference error of a name
    the registry does not hold, or the attribute error of the fallback on
    a handle without the generic accessor when an argument read before
    the marker meets one; it is the reference error when every registered
    handle has the accessor.  What the loop does step over is a
    declaration whose module or class the backend lacks: the error is
    printed and the loop goes on with the next one. *)
Theorem build_reference_failure_raises :
  forall (imports : Imports) (terraform_output : OutputCtor) (cfg : Config)
         (pre : list AWSResource) (d : AWSResource) (post : list AWSResource)
         (b1 : Builder),
    aws_resources cfg = (pre ++ d :: post)%list ->
    build_loop imports (new_builder cfg) pre = (b1, Normal) ->
    dangling_args (resources b1) (dict_remove (res_args d) "existing") = true ->
    (exists w e,
        build imports terraform_output (new_builder cfg)
        = (say b1 w, Raised e)
        /\ resources (say b1 w) = resources b1
        /\ outputs (say b1 w) = []
        /\ (reference_error (resources b1) e
            \/ accessor_error (resources b1) e)
        /\ (has_accessors (resources b1) ->
            exists name,
              dict_has (resources b1) name = false
              /\ e = ValueError
                       ("Referenced resource '" ++ name ++ "' not found.")))
    /\ (forall b rc rest w resolved_args e,
           resolve_args (dict_remove (res_args rc) "existing") (resources b)
           = (w, inr resolved_args) ->
           import_class imports
             ("imports.aws." ++ fst (_map_resource_type (res_type rc)))
             (snd (_map_resource_type (res_type rc))) = inl e ->
           build_loop imports b (rc :: rest)
           = build_loop imports
               (say (say b w) [ErrorCreating (res_name rc) (res_type rc) e])
               rest).
Proof.
  intros imports terraform_output cfg pre d post b1 Hcfg Hpre Hd. split.
  - destruct (build_one_dangling imports b1 d Hd) as [w [e [Hone Herr]]].
    exists w, e. split; [|split; [|split; [|split]]].
    + unfold build. cbn [config new_builder]. rewrite Hcfg, build_loop_app, Hpre.
      cbn [build_loop]. now rewrite Hone.
    + reflexivity.
    + pose proof (build_loop_outputs imports pre (new_builder cfg)) as Ho.
      rewrite Hpre in Ho. exact Ho.
    + exact Herr.
    + intros Hacc. destruct Herr as [Href|[_ [k [h [Hk Hg]]]]]; [exact Href|].
      now elim (Hacc k h Hk).
  - intros b rc rest w resolved_args e Hres Himp.
    cbn [build_loop]. unfold build_one. rewrite Hres. unfold materialize.
    destruct (_map_resource_type (res_type rc)) as [module_name class_name].
    cbn [fst snd] in Himp. rewrite Himp.
    now rewrite (import_class_caught _ _ _ _ Himp).
Qed.

Lemma build_reference_failure_raises_witness :
  exists w e,
    build demo_imports scope_output (new_builder three_config)
    = (say (fst (build_loop demo_imports (new_builder three_config)
                   [decl_one])) w, Raised e)
    /\ outputs (say (fst (build_loop demo_imports (new_builder three_config)
                            [decl_one])) w) = []
    /\ exists name,
        dict_has (resources (fst (build_loop demo_imports
                                    (new_builder three_config) [decl_one])))
          name = false
        /\ e = ValueError ("Referenced resource '" ++ name ++ "' not found.").
Proof.
  assert (Hacc : has_accessors
                   (resources (fst (build_loop demo_imports
                                      (new_builder three_config) [decl_one])))).
  { change (resources (fst (build_loop demo_imports (new_builder three_config)
                              [decl_one])))
      with [("vpc-one", token_handle "vpc-one")].
    intros k h. cbn [dict_get].
    destruct (String.eqb "vpc-one" k); [|discriminate].
    intros [= <-]. discriminate. }
  destruct (proj1 (build_reference_failure_raises demo_imports scope_output
                     three_config [decl_one] decl_two [decl_three]
                     (fst (build_loop demo_imports (new_builder three_config)
                             [decl_one]))
                     eq_refl eq_refl eq_refl))
    as [w [e [Hb [_ [Ho [_ Hv]]]]]].
  exists w, e. split; [exact Hb|]. split; [exact Ho|exact (Hv Hacc)].
Defined.

(** On the three declarations of which the second refers to a resource
    that does not exist, [build] raises the reference error: the third
    declaration is not registered and no output is exported. *)
Lemma build_partial_failure_counterexample :
  snd (build demo_imports scope_output (new_builder three_config))
  = Raised (ValueError "Referenced resource 'missing' not found.")
  /\ dict_keys (resources (fst (build demo_imports scope_output (new_builder three_config))))
     = ["vpc-one"]
  /\ dict_has (resources (fst (build demo_imports scope_output (new_builder three_config))))
       "bucket-three" = false
  /\ resource_ids (fst (build demo_imports scope_output (new_builder three_config)))
     = ["vpc-one"]
  /\ outputs (fst (build demo_imports scope_output (new_builder three_config))) = [].
Proof. repeat split. Qed.

(** The failure the loop does step over: with a second declaration of a
    type the backend lacks, the first and the third are registered and
    exported and the second is reported. *)
Example build_skips_unknown_type :
  let b := fst (build demo_imports scope_output
                  (new_builder (with_resources example_config
                                  [decl_one; decl_unknown; decl_three]))) in
  dict_keys (resources b) = ["vpc-one"; "bucket-three"]
  /\ outputs b = [("output_vpc-one", VStr "${vpc-one.id}");
                  ("output_bucket-three", VStr "${bucket-three.id}")]
  /\ stdout b
     = [CreatedResource "demo-example-dev-use1-vpc-one" "vpc.Vpc";
        ErrorCreating "widget-two" "foo.Widget" (ImportError "imports.aws.foo");
        CreatedResource "demo-example-dev-use1-bucket-three"
          "s3_bucket.S3Bucket"].
Proof. repeat split. Qed.

(** C2, at the first resource of [example.py]: the construct id the
    backend is called with is the name of the declaration, with and
    without a custom name; the generated name and the custom name reach
    the printed line only.  The handle is stored under the name of the
    declaration. *)
Theorem build_passes_declaration_name :
  let b := fst (build demo_imports scope_output
                  (new_builder (with_resources example_config [decl_vpc]))) in
  let b' := fst (build demo_imports scope_output
                   (new_builder (with_resources example_config
                                   [decl_vpc_custom]))) in
  generate_resource_name example_config "vpc-example"
  = "demo-example-dev-use1-vpc-example"
  /\ resource_ids b = ["vpc-example"]
  /\ stdout b = [CreatedResource "demo-example-dev-use1-vpc-example" "vpc.Vpc"]
  /\ outputs b = [("output_vpc-example", VStr "${vpc-example.id}")]
  /\ dict_keys (resources b) = ["vpc-example"]
  /\ resource_ids b' = ["vpc-example"]
  /\ stdout b' = [CreatedResource "my-vpc" "vpc.Vpc"]
  /\ outputs b' = [("output_vpc-example", VStr "${vpc-example.id}")]
  /\ dict_keys (resources b') = ["vpc-example"].
Proof. repeat split. Qed.

(** * Further properties of the code *)

(** ** [to_snake_case] *)

Lemma lower_char_not_capital (c : ascii) : is_capital (lower_char c) = false.
Proof. destruct c as [[] [] [] [] [] [] [] []]; reflexivity. Qed.

Lemma no_capitals_lower (s : string) : no_capitals (lower s) = true.
Proof.
  induction s as [|c s IH]; [reflexivity|].
  cbn [lower no_capitals]. now rewrite lower_char_not_capital, IH.
Qed.

Lemma underscore_capitals_plain (s : string) :
  no_capitals s = true -> underscore_capitals s = s.
Proof.
  induction s as [|c s IH]; [reflexivity|].
  cbn [no_capitals underscore_capitals]. intros H.
  apply andb_true_iff in H as [Hc Hs]. apply negb_true_iff in Hc.
  now rewrite Hc, (IH Hs).
Qed.

Lemma underscore_capitals_app (a b : string) :
  underscore_capitals (a ++ b) = underscore_capitals a ++ underscore_capitals b.
Proof.
  induction a as [|c a IH]; [reflexivity|].
  cbn [append underscore_capitals]. rewrite IH.
  now destruct (is_capital c).
Qed.

Lemma to_snake_case_plain (name : string) :
  no_capitals name = true -> to_snake_case name = lower name.
Proof.
  unfold to_snake_case. destruct name as [|c t]; [reflexivity|].
  cbn [no_capitals]. intros H. apply andb_true_iff in H as [_ Ht].
  now rewrite (underscore_capitals_plain t Ht).
Qed.

(** X1: a name without a capital of A-Z is only lowercased, the result of
    [to_snake_case] has no such capital, and converting twice is
    converting once: a key already in snake case maps to itself. *)
Theorem to_snake_case_idempotent :
  forall (name : string),
    no_capitals (to_snake_case name) = true
    /\ to_snake_case (to_snake_case name) = to_snake_case name
    /\ (no_capitals name = true -> to_snake_case name = lower name).
Proof.
  intros name. split; [|split].
  - unfold to_snake_case. apply no_capitals_lower.
  - rewrite (to_snake_case_plain (to_snake_case name)).
    + unfold to_snake_case. apply lower_idem.
    + unfold to_snake_case. apply no_capitals_lower.
  - apply to_snake_case_plain.
Qed.

(** X2: a name splits at a capital that is not its first character: the
    snake case of the whole is the snake case of the parts joined by an
    underscore. *)
Theorem to_snake_case_splits_at_capital :
  forall (a b : string) (c : ascii),
    a <> "" -> is_capital c = true ->
    to_snake_case (a ++ String c b)
    = to_snake_case a ++ "_" ++ to_snake_case (String c b).
Proof.
  intros a b c Ha Hc. destruct a as [|x a]; [now elim Ha|].
  unfold to_snake_case. cbn [append].
  rewrite underscore_capitals_app. cbn [underscore_capitals]. rewrite Hc.
  change (String x (underscore_capitals a
                    ++ String "_" (String c (underscore_capitals b))))
    with (String x (underscore_capitals a)
          ++ "_" ++ String c (underscore_capitals b)).
  now rewrite !lower_app.
Qed.

Lemma to_snake_case_splits_at_capital_witness :
  to_snake_case "vpcSecurityGroupIds"
  = to_snake_case "vpcSecurityGroup" ++ "_" ++ to_snake_case "Ids".
Proof.
  apply (to_snake_case_splits_at_capital "vpcSecurityGroup" "ds" "I");
    [discriminate|reflexivity].
Defined.

(** ** [get_lookup_params] *)

Lemma get_lookup_params_from_get (required_params : list string)
    (resolved_args : Dict) (param : string) :
  forall lookup_params,
    dict_get (get_lookup_params_from lookup_params required_params
                resolved_args) param
    = if in_dec string_dec param required_params
      then match lookup_value resolved_args param with
           | Some v => Some v
           | None => dict_get lookup_params param
           end
      else dict_get lookup_params param.
Proof.
  induction required_params as [|p rest IH]; intros lookup_params;
    [reflexivity|].
  cbn [get_lookup_params_from]. rewrite IH. clear IH.
  destruct (in_dec string_dec param (p :: rest)) as [Hin|Hnin];
    destruct (in_dec string_dec param rest) as [Hr|Hnr].
  - destruct (lookup_value resolved_args param) as [v|] eqn:Hv; [reflexivity|].
    destruct (String.eqb_spec p param) as [->|Hne].
    + unfold lookup_value in Hv.
      destruct (dict_get resolved_args (to_snake_case param)); [discriminate|].
      now rewrite Hv.
    + apply String.eqb_neq in Hne.
      destruct (dict_get resolved_args (to_snake_case p));
        [now apply dict_get_set_other|].
      destruct (dict_get resolved_args p); [now apply dict_get_set_other|].
      reflexivity.
  - destruct Hin as [->|Hin]; [|now elim Hnr].
    unfold lookup_value.
    destruct (dict_get resolved_args (to_snake_case param)) as [v|];
      [apply dict_get_set_same|].
    destruct (dict_get resolved_args param) as [v|];
      [apply dict_get_set_same|reflexivity].
  - elim Hnin. now right.
  - assert (Hne : String.eqb p param = false).
    { apply String.eqb_neq. intros ->. apply Hnin. now left. }
    destruct (dict_get resolved_args (to_snake_case p));
      [now apply dict_get_set_other|].
    destruct (dict_get resolved_args p); [now apply dict_get_set_other|].
    reflexivity.
Qed.

(** X3: the lookup parameters hold, for each required parameter, the
    argument under its snake case key, or the argument under its own name
    when there is no snake case key; a required parameter with neither and
    a parameter that is not required are left out. *)
Theorem get_lookup_params_get :
  forall (required_params : list string) (resolved_args : Dict)
         (param : string),
    dict_get (get_lookup_params required_params resolved_args) param
    = if in_dec string_dec param required_params
      then match dict_get resolved_args (to_snake_case param) with
           | Some v => Some v
           | None => dict_get resolved_args param
           end
      else None.
Proof.
  intros required_params resolved_args param. unfold get_lookup_params.
  rewrite get_lookup_params_from_get. unfold lookup_value.
  destruct (in_dec string_dec param required_params); [|reflexivity].
  destruct (dict_get resolved_args (to_snake_case param)); [reflexivity|].
  now destruct (dict_get resolved_args param).
Qed.

(** X4: the order in which the loop meets the required parameters does
    not change what the result holds for any parameter. *)
Theorem get_lookup_params_order :
  forall (required_params required_params' : list string)
         (resolved_args : Dict),
    Permutation required_params required_params' ->
    forall param,
      dict_get (get_lookup_params required_params resolved_args) param
      = dict_get (get_lookup_params required_params' resolved_args) param.
Proof.
  intros required_params required_params' resolved_args Hp param.
  unfold get_lookup_params. rewrite !get_lookup_params_from_get.
  destruct (in_dec string_dec param required_params) as [H|H];
    destruct (in_dec string_dec param required_params') as [H'|H'];
    try reflexivity.
  - elim H'. exact (Permutation_in _ Hp H).
  - elim H. exact (Permutation_in _ (Permutation_sym Hp) H').
Qed.

Lemma get_lookup_params_order_witness :
  dict_get (get_lookup_params ["vpcId"; "name"]
              [("vpc_id", VStr "vpc-1"); ("name", VStr "n")]) "vpcId"
  = dict_get (get_lookup_params ["name"; "vpcId"]
                [("vpc_id", VStr "vpc-1"); ("name", VStr "n")]) "vpcId".
Proof.
  exact (get_lookup_params_order ["vpcId"; "name"] ["name"; "vpcId"]
           [("vpc_id", VStr "vpc-1"); ("name", VStr "n")]
           (perm_swap "name" "vpcId" []) "vpcId").
Defined.

(** ** Splitting and case *)

Lemma split_once_fst_clean (sep : ascii) (s : string) :
  contains (String sep "") (fst (split_once sep s)) = false.
Proof.
  induction s as [|c s IH]; [reflexivity|].
  cbn [split_once]. destruct (Ascii.eqb c sep) eqn:Hc; [reflexivity|].
  destruct (split_once sep s) as [a b]. cbn [fst] in *.
  now rewrite contains_char_cons, Hc, IH.
Qed.

Lemma split_once_join (sep : ascii) (s : string) :
  contains (String sep "") s = true ->
  fst (split_once sep s) ++ String sep (snd (split_once sep s)) = s.
Proof.
  induction s as [|c s IH]; [discriminate|].
  rewrite contains_char_cons. cbn [split_once].
  destruct (Ascii.eqb_spec c sep) as [->|Hc]; [reflexivity|].
  cbn [orb]. intros Hs. specialize (IH Hs).
  destruct (split_once sep s) as [a b]. cbn [fst snd append] in *.
  now rewrite IH.
Qed.

Lemma lower_char_hyphen (c : ascii) :
  Ascii.eqb (lower_char c) "-" = Ascii.eqb c "-".
Proof. destruct c as [[] [] [] [] [] [] [] []]; reflexivity. Qed.

Lemma first_field_lower (s : string) :
  first_field "-" (lower s) = lower (first_field "-" s).
Proof.
  unfold first_field. induction s as [|c s IH]; [reflexivity|].
  cbn [lower split_once]. rewrite lower_char_hyphen.
  destruct (Ascii.eqb c "-"); [reflexivity|].
  destruct (split_once "-" (lower s)) as [a b].
  destruct (split_once "-" s) as [a' b']. cbn [fst lower] in *.
  now rewrite IH.
Qed.

Lemma contains_hyphen_lower (s : string) :
  contains "-" (lower s) = contains "-" s.
Proof.
  induction s as [|c s IH]; [reflexivity|].
  change (lower (String c s)) with (String (lower_char c) (lower s)).
  now rewrite !contains_char_cons, lower_char_hyphen, IH.
Qed.

Lemma region_table_clean :
  Forall (fun kv => contains "-" (snd kv) = false) AWS_REGION_ABBREVIATIONS.
Proof. repeat constructor. Qed.

(** X5: the abbreviation does not depend on the case of the region, and
    it has no hyphen and no upper case letter, so the generated name keeps
    its five fields apart. *)
Theorem get_abbreviation_case_insensitive :
  forall (region region' : string),
    lower region = lower region' ->
    get_abbreviation region = get_abbreviation region'
    /\ contains "-" (get_abbreviation region) = false
    /\ lower (get_abbreviation region) = get_abbreviation region.
Proof.
  intros region region' H. split; [|split].
  - unfold get_abbreviation. rewrite <- !first_field_lower. now rewrite H.
  - unfold get_abbreviation.
    destruct (dict_get AWS_REGION_ABBREVIATIONS (lower region)) as [abbr|] eqn:E.
    + apply dict_get_In in E.
      exact (proj1 (Forall_forall _ _) region_table_clean _ E).
    + rewrite contains_hyphen_lower. apply split_once_fst_clean.
  - apply get_abbreviation_lower.
Qed.

Lemma get_abbreviation_case_insensitive_witness :
  get_abbreviation "EU-West-1" = get_abbreviation "eu-west-1"
  /\ get_abbreviation "Mars-North-7" = get_abbreviation "mars-north-7".
Proof.
  split.
  - exact (proj1 (get_abbreviation_case_insensitive "EU-West-1" "eu-west-1"
                    eq_refl)).
  - exact (proj1 (get_abbreviation_case_insensitive "Mars-North-7"
                    "mars-north-7" eq_refl)).
Defined.

Lemma service_map_lower :
  Forall (fun kv => lower (snd kv) = snd kv) service_map.
Proof. repeat constructor. Qed.

(** X6: the module name of every type tag is in lower case, the class
    name is the end of the tag, and a tag with a dot is its service, a
    dot and its class. *)
Theorem map_resource_type_parts :
  forall (resource_type : string),
    lower (fst (_map_resource_type resource_type))
    = fst (_map_resource_type resource_type)
    /\ (exists service,
           contains "." service = false
           /\ fst (_map_resource_type resource_type)
              = match dict_get service_map (lower service) with
                | Some m => m
                | None => lower service
                end
           /\ (resource_type
               = service ++ "." ++ snd (_map_resource_type resource_type)
               \/ (service = "ec2"
                   /\ resource_type = snd (_map_resource_type resource_type)
                   /\ contains "." resource_type = false))).
Proof.
  intros resource_type.
  assert (Hlow : forall s,
             lower (match dict_get service_map (lower s) with
                    | Some m => m
                    | None => lower s
                    end)
             = match dict_get service_map (lower s) with
               | Some m => m
               | None => lower s
               end).
  { intros s. destruct (dict_get service_map (lower s)) as [m|] eqn:E.
    - apply dict_get_In in E.
      exact (proj1 (Forall_forall _ _) service_map_lower _ E).
    - apply lower_idem. }
  unfold _map_resource_type.
  destruct (contains "." resource_type) eqn:Hdot.
  - pose proof (split_once_join "." resource_type Hdot) as Hjoin.
    pose proof (split_once_fst_clean "." resource_type) as Hclean.
    destruct (split_once "." resource_type) as [service class_name].
    cbn [fst snd] in *. split; [apply Hlow|].
    exists service. split; [exact Hclean|]. split; [reflexivity|].
    left. now rewrite <- Hjoin.
  - cbn [fst snd]. split; [reflexivity|].
    exists "ec2". split; [reflexivity|]. split; [reflexivity|].
    right. now split.
Qed.

(** X7: the resource name read from the text of a reference never has a
    dot: with a dot in the text it is the text before the first dot, and
    the text is the name, a dot and the attribute.  A declaration whose
    name has a dot is therefore never the one a reference names. *)
Theorem parse_ref_name :
  forall (ref_text : string),
    contains "." (fst (parse_ref ref_text)) = false
    /\ (ref_text = fst (parse_ref ref_text) ++ "." ++ snd (parse_ref ref_text)
        \/ (ref_text = fst (parse_ref ref_text)
            /\ snd (parse_ref ref_text) = "id"))
    /\ forall name, contains "." name = true -> fst (parse_ref ref_text) <> name.
Proof.
  intros ref_text.
  assert (Hclean : contains "." (fst (parse_ref ref_text)) = false).
  { unfold parse_ref. destruct (contains "." ref_text) eqn:Hdot;
      [apply split_once_fst_clean|exact Hdot]. }
  split; [exact Hclean|]. split.
  - unfold parse_ref. destruct (contains "." ref_text) eqn:Hdot.
    + left. symmetry. exact (split_once_join "." ref_text Hdot).
    + right. now split.
  - intros name Hname Heq. rewrite Heq in Hclean. congruence.
Qed.

(** ** The resolver on whole trees *)

(** X8: a [secret:] marker resolves to the placeholder of its key with one
    warning, whatever the registry holds and whatever the key looks like;
    the placeholder is no marker. *)
Theorem resolve_secret_placeholder :
  forall (secret_key : string) (resources : Registry),
    resolve_value (VStr ("secret:" ++ secret_key)) resources
    = ([WarnSecret secret_key], inr (VStr ("${" ++ secret_key ++ "}")))
    /\ marker_free (VStr ("${" ++ secret_key ++ "}")) = true.
Proof.
  intros secret_key resources. split.
  - change (resolve_value (VStr ("secret:" ++ secret_key)) resources)
      with (resolve_str ("secret:" ++ secret_key) resources).
    unfold resolve_str.
    assert (E : startswith ("secret:" ++ secret_key) "secret:" = true)
      by (destruct secret_key; reflexivity).
    rewrite E. reflexivity.
  - reflexivity.
Qed.

Lemma resolve_str_ref_free (resources : Registry) (s : string) :
  ref_free (VStr s) = true ->
  exists w v',
    resolve_str s resources = (w, inr v')
    /\ marker_free v' = true
    /\ resolve_str s [] = (w, inr v').
Proof.
  cbn [ref_free]. unfold resolve_str. intros H.
  destruct (startswith s "secret:") eqn:Hsec.
  - eexists _, _. split; [reflexivity|]. split; reflexivity.
  - cbn [orb] in H. apply negb_true_iff in H. rewrite H.
    eexists _, _. split; [reflexivity|]. split; [|reflexivity].
    cbn [marker_free]. now rewrite Hsec, H.
Qed.

Lemma resolve_value_ref_free (resources : Registry) (v : Value) :
  ref_free v = true ->
  exists w v',
    resolve_value v resources = (w, inr v')
    /\ marker_free v' = true
    /\ resolve_value v [] = (w, inr v').
Proof.
  induction v as [ | b | z | s | l IHl | d IHd ] using Value_tree_ind;
    intros Hf;
    try (eexists _, _; split; [reflexivity|]; split; reflexivity).
  - now apply resolve_str_ref_free.
  - change (forallb ref_free l = true) in Hf.
    assert (E : exists w l',
               resolve_elems resources l = (w, inr l')
               /\ forallb marker_free l' = true
               /\ resolve_elems [] l = (w, inr l')).
    { induction IHl as [|x l Hx _ IH].
      - exists [], []. repeat split.
      - cbn [forallb] in Hf. apply andb_true_iff in Hf as [Hfx Hfl].
        destruct (Hx Hfx) as [w1 [x' [Hr [Hm Hr0]]]].
        destruct (IH Hfl) as [w2 [l' [Hrl [Hml Hrl0]]]].
        exists (w1 ++ w2 ++ [])%list, (x' :: l'). split; [|split].
        + cbn [resolve_elems]. apply (bind_ok _ _ _ _ x'); [exact Hr|].
          now apply (bind_ok _ _ _ _ l').
        + cbn [forallb]. now rewrite Hm, Hml.
        + cbn [resolve_elems]. apply (bind_ok _ _ _ _ x'); [exact Hr0|].
          now apply (bind_ok _ _ _ _ l'). }
    destruct E as [w [l' [Hr [Hm Hr0]]]].
    exists (w ++ [])%list, (VList l'). split; [|split].
    + rewrite resolve_value_list. now apply (bind_ok _ _ _ _ l').
    + exact Hm.
    + rewrite resolve_value_list. now apply (bind_ok _ _ _ _ l').
  - change (forallb (fun kv => ref_free (snd kv)) d = true) in Hf.
    assert (E : exists w d',
               resolve_items resources d = (w, inr d')
               /\ forallb (fun kv => marker_free (snd kv)) d' = true
               /\ resolve_items [] d = (w, inr d')).
    { induction IHd as [|[k x] d Hx _ IH].
      - exists [], []. repeat split.
      - cbn [forallb snd] in Hf. apply andb_true_iff in Hf as [Hfx Hfd].
        cbn [snd] in Hx.
        destruct (Hx Hfx) as [w1 [x' [Hr [Hm Hr0]]]].
        destruct (IH Hfd) as [w2 [d' [Hrd [Hmd Hrd0]]]].
        exists (w1 ++ w2 ++ [])%list, ((k, x') :: d'). split; [|split].
        + cbn [resolve_items]. apply (bind_ok _ _ _ _ x'); [exact Hr|].
          now apply (bind_ok _ _ _ _ d').
        + cbn [forallb snd]. now rewrite Hm, Hmd.
        + cbn [resolve_items]. apply (bind_ok _ _ _ _ x'); [exact Hr0|].
          now apply (bind_ok _ _ _ _ d'). }
    destruct E as [w [d' [Hr [Hm Hr0]]]].
    exists (w ++ [])%list, (VDict d'). split; [|split].
    + rewrite resolve_value_dict. now apply (bind_ok _ _ _ _ d').
    + exact Hm.
    + rewrite resolve_value_dict. now apply (bind_ok _ _ _ _ d').
Qed.

(** X9: a tree without a [ref:] marker always resolves: nothing is
    raised, the registry is not consulted (the result is the one for the
    empty registry), and the resolved tree has no marker left. *)
Theorem resolve_value_without_references :
  forall (v : Value) (resources : Registry),
    ref_free v = true ->
    exists w v',
      resolve_value v resources = (w, inr v')
      /\ marker_free v' = true
      /\ resolve_value v [] = (w, inr v').
Proof. intros v resources. apply resolve_value_ref_free. Qed.

Lemma resolve_value_without_references_witness :
  exists w v',
    resolve_value
      (VDict [("password", VStr "secret:db_password");
              ("ports", VList [VInt 5432]); ("name", VStr "db")])
      [("vpc-one", token_handle "vpc-one")] = (w, inr v')
    /\ marker_free v' = true
    /\ resolve_value
         (VDict [("password", VStr "secret:db_password");
                 ("ports", VList [VInt 5432]); ("name", VStr "db")])
         [] = (w, inr v').
Proof.
  exact (resolve_value_without_references
           (VDict [("password", VStr "secret:db_password");
                   ("ports", VList [VInt 5432]); ("name", VStr "db")])
           [("vpc-one", token_handle "vpc-one")] eq_refl).
Defined.

Lemma resolve_items_keys (resources : Registry) (d : list (string * Value)) :
  forall w d',
    resolve_items resources d = (w, inr d') -> dict_keys d' = dict_keys d.
Proof.
  induction d as [|[k x] d IH]; intros w d' H.
  - now injection H as _ <-.
  - cbn [resolve_items] in H.
    apply bind_inr in H as [w1 [x' [w2 [_ [H _]]]]].
    apply bind_inr in H as [w3 [t' [w4 [Ht [H _]]]]].
    injection H as _ <-. cbn [dict_keys map fst].
    f_equal. exact (IH _ _ Ht).
Qed.

Lemma resolve_elems_length (resources : Registry) (l : list Value) :
  forall w l',
    resolve_elems resources l = (w, inr l') -> length l' = length l.
Proof.
  induction l as [|x l IH]; intros w l' H.
  - now injection H as _ <-.
  - cbn [resolve_elems] in H.
    apply bind_inr in H as [w1 [x' [w2 [_ [H _]]]]].
    apply bind_inr in H as [w3 [t' [w4 [Ht [H _]]]]].
    injection H as _ <-. cbn [length]. f_equal. exact (IH _ _ Ht).
Qed.

Lemma resolve_args_keys (resources : Registry) (args : Dict) :
  forall w args',
    resolve_args args resources = (w, inr args') ->
    dict_keys args' = dict_keys args.
Proof.
  induction args as [|[k x] args IH]; intros w args' H.
  - now injection H as _ <-.
  - cbn [resolve_args] in H.
    apply bind_inr in H as [w1 [x' [w2 [_ [H _]]]]].
    apply bind_inr in H as [w3 [t' [w4 [Ht [H _]]]]].
    injection H as _ <-. cbn [dict_keys map fst].
    f_equal. exact (IH _ _ Ht).
Qed.

(** X10: resolution keeps the shape of what it resolves: the resolved
    arguments have the keys of the arguments in their order, a resolved
    mapping is a mapping with the same keys in the same order, and a
    resolved sequence is a sequence of the same length. *)
Theorem resolve_keeps_shape :
  forall (resources : Registry),
    (forall args w args',
        resolve_args args resources = (w, inr args') ->
        dict_keys args' = dict_keys args)
    /\ (forall d w v',
           resolve_value (VDict d) resources = (w, inr v') ->
           exists d', v' = VDict d' /\ dict_keys d' = dict_keys d)
    /\ (forall l w v',
           resolve_value (VList l) resources = (w, inr v') ->
           exists l', v' = VList l' /\ length l' = length l).
Proof.
  intros resources. split; [|split].
  - apply resolve_args_keys.
  - intros d w v' H. rewrite resolve_value_dict in H.
    apply bind_inr in H as [w1 [d' [w2 [Hd [H _]]]]].
    injection H as _ <-. exists d'. split; [reflexivity|].
    exact (resolve_items_keys _ _ _ _ Hd).
  - intros l w v' H. rewrite resolve_value_list in H.
    apply bind_inr in H as [w1 [l' [w2 [Hl [H _]]]]].
    injection H as _ <-. exists l'. split; [reflexivity|].
    exact (resolve_elems_length _ _ _ _ Hl).
Qed.

Lemma resolve_keeps_shape_witness :
  dict_keys [("vpc_id", VStr "${vpc-one.id}"); ("password", VStr "${pw}")]
  = dict_keys [("vpc_id", VStr "ref:vpc-one"); ("password", VStr "secret:pw")].
Proof.
  exact (proj1 (resolve_keeps_shape [("vpc-one", token_handle "vpc-one")])
           [("vpc_id", VStr "ref:vpc-one"); ("password", VStr "secret:pw")]
           [WarnSecret "pw"]
           [("vpc_id", VStr "${vpc-one.id}"); ("password", VStr "${pw}")]
           eq_refl).
Defined.

Lemma read_ref_extends (resources resources' : Registry)
    (ref_res ref_attr : string) (w : list Event) (v' : Value) :
  extends resources resources' ->
  read_ref resources ref_res ref_attr = (w, inr v') ->
  read_ref resources' ref_res ref_attr = (w, inr v').
Proof.
  intros Hext. unfold read_ref.
  destruct (dict_get resources ref_res) as [h|] eqn:Hh; [|discriminate].
  now rewrite (Hext _ _ Hh).
Qed.

Lemma resolve_value_extends (resources resources' : Registry) (v : Value) :
  extends resources resources' ->
  forall w v',
    resolve_value v resources = (w, inr v') ->
    resolve_value v resources' = (w, inr v').
Proof.
  intros Hext.
  induction v as [ | b | z | s | l IHl | d IHd ] using Value_tree_ind;
    intros w v' H; try exact H.
  - change (resolve_str s resources = (w, inr v')) in H.
    change (resolve_str s resources' = (w, inr v')).
    unfold resolve_str in *.
    destruct (startswith s "secret:"); [exact H|].
    destruct (startswith s "ref:"); [|exact H].
    destruct (parse_ref (slice_from 4 s)) as [ref_res ref_attr].
    now apply (read_ref_extends resources).
  - rewrite resolve_value_list in *.
    apply bind_inr in H as [w1 [l' [w2 [Hl [Hret ->]]]]].
    apply (bind_ok _ _ _ _ l'); [|exact Hret]. clear Hret.
    revert w1 l' Hl. induction IHl as [|x l Hx _ IH]; intros w1 l' Hl;
      [exact Hl|].
    cbn [resolve_elems] in *.
    apply bind_inr in Hl as [w3 [x' [w4 [Hx' [Hl ->]]]]].
    apply bind_inr in Hl as [w5 [t' [w6 [Ht [Hret ->]]]]].
    apply (bind_ok _ _ _ _ x'); [now apply Hx|].
    apply (bind_ok _ _ _ _ t'); [now apply IH|exact Hret].
  - rewrite resolve_value_dict in *.
    apply bind_inr in H as [w1 [d' [w2 [Hd [Hret ->]]]]].
    apply (bind_ok _ _ _ _ d'); [|exact Hret]. clear Hret.
    revert w1 d' Hd. induction IHd as [|[k x] d Hx _ IH]; intros w1 d' Hd;
      [exact Hd|].
    cbn [resolve_items] in *. cbn [snd] in Hx.
    apply bind_inr in Hd as [w3 [x' [w4 [Hx' [Hd ->]]]]].
    apply bind_inr in Hd as [w5 [t' [w6 [Ht [Hret ->]]]]].
    apply (bind_ok _ _ _ _ x'); [now apply Hx|].
    apply (bind_ok _ _ _ _ t'); [now apply IH|exact Hret].
Qed.

(** X11: what resolves against a registry resolves to the same value,
    with the same warnings, against every registry that holds the same
    handles under the same names and more: registering further resources
    does not change the meaning of the references already resolved. *)
Theorem resolve_stable_under_registration :
  forall (resources resources' : Registry),
    extends resources resources' ->
    (forall v w v',
        resolve_value v resources = (w, inr v') ->
        resolve_value v resources' = (w, inr v'))
    /\ (forall args w args',
           resolve_args args resources = (w, inr args') ->
           resolve_args args resources' = (w, inr args')).
Proof.
  intros resources resources' Hext. split.
  - intros v. now apply resolve_value_extends.
  - induction args as [|[k x] args IH]; intros w args' H; [exact H|].
    cbn [resolve_args] in *.
    apply bind_inr in H as [w3 [x' [w4 [Hx' [H ->]]]]].
    apply bind_inr in H as [w5 [t' [w6 [Ht [Hret ->]]]]].
    apply (bind_ok _ _ _ _ x');
      [now apply (resolve_value_extends resources)|].
    apply (bind_ok _ _ _ _ t'); [now apply IH|exact Hret].
Qed.

Lemma resolve_stable_under_registration_witness :
  resolve_value (VList [VStr "ref:vpc-one"; VStr "ref:vpc-one.arn"])
    [("vpc-one", token_handle "vpc-one");
     ("subnet-two", token_handle "subnet-two")]
  = ([WarnAttribute "arn" "vpc-one"],
     inr (VList [VStr "${vpc-one.id}"; VStr "${vpc-one.arn}"])).
Proof.
  assert (Hext : extends [("vpc-one", token_handle "vpc-one")]
                   [("vpc-one", token_handle "vpc-one");
                    ("subnet-two", token_handle "subnet-two")]).
  { intros k h. cbn [dict_get].
    destruct (String.eqb "vpc-one" k); [auto|discriminate]. }
  apply (proj1 (resolve_stable_under_registration _ _ Hext)). reflexivity.
Defined.

Lemma resolve_str_fails (resources : Registry) (s : string) (e : Exn) :
  has_accessors resources ->
  snd (resolve_str s resources) = inl e ->
  dangling resources (VStr s) = true.
Proof.
  intros Hacc. unfold resolve_str. cbn [dangling].
  destruct (startswith s "secret:"); [discriminate|].
  destruct (startswith s "ref:"); [|discriminate].
  destruct (parse_ref (slice_from 4 s)) as [ref_res ref_attr].
  cbn [fst negb andb]. unfold read_ref, dict_has.
  destruct (dict_get resources ref_res) as [h|] eqn:Hh; [|reflexivity].
  destruct (h_getattr h ref_attr); [discriminate|].
  destruct (h_get_string h) eqn:Hg; [discriminate|].
  now elim (Hacc _ _ Hh).
Qed.

Lemma resolve_value_fails (resources : Registry) (v : Value) :
  has_accessors resources ->
  forall e, snd (resolve_value v resources) = inl e ->
            dangling resources v = true.
Proof.
  intros Hacc.
  induction v as [ | b | z | s | l IHl | d IHd ] using Value_tree_ind;
    intros e H; try discriminate.
  - now apply (resolve_str_fails resources s e).
  - change (existsb (dangling resources) l = true).
    rewrite resolve_value_list in H.
    apply bind_inl in H as [H|[w [a [_ H]]]]; [|discriminate].
    revert e H. induction IHl as [|x l Hx _ IH]; intros e H; [discriminate|].
    cbn [resolve_elems] in H. cbn [existsb]. apply orb_true_iff.
    apply bind_inl in H as [H|[w [a [_ H]]]]; [left; now apply (Hx e)|].
    apply bind_inl in H as [H|[w' [a' [_ H]]]]; [|discriminate].
    right. now apply (IH e).
  - change (existsb (fun kv => dangling resources (snd kv)) d = true).
    rewrite resolve_value_dict in H.
    apply bind_inl in H as [H|[w [a [_ H]]]]; [|discriminate].
    revert e H. induction IHd as [|[k x] d Hx _ IH]; intros e H;
      [discriminate|].
    cbn [resolve_items] in H. cbn [existsb snd]. cbn [snd] in Hx.
    apply orb_true_iff.
    apply bind_inl in H as [H|[w [a [_ H]]]]; [left; now apply (Hx e)|].
    apply bind_inl in H as [H|[w' [a' [_ H]]]]; [|discriminate].
    right. now apply (IH e).
Qed.

(** X12: when every handle of the registry has the generic accessor, a
    tree fails to resolve exactly when one of its strings is a reference
    to a name the registry does not hold; the same holds of the arguments
    of a declaration. *)
Theorem resolve_fails_iff_dangling :
  forall (resources : Registry),
    has_accessors resources ->
    (forall v,
        (exists e, snd (resolve_value v resources) = inl e)
        <-> dangling resources v = true)
    /\ (forall args,
           (exists e, snd (resolve_args args resources) = inl e)
           <-> dangling_args resources args = true).
Proof.
  intros resources Hacc. split.
  - intros v. split.
    + intros [e He]. now apply (resolve_value_fails resources v Hacc e).
    + apply resolve_value_dangling.
  - intros args. split; [|apply resolve_args_dangling].
    intros [e He]. unfold dangling_args.
    revert e He. induction args as [|[k x] args IH]; intros e He;
      [discriminate|].
    cbn [resolve_args] in He. cbn [existsb snd]. apply orb_true_iff.
    apply bind_inl in He as [H|[w [a [_ H]]]];
      [left; now apply (resolve_value_fails resources x Hacc e)|].
    apply bind_inl in H as [H|[w' [a' [_ H]]]]; [|discriminate].
    right. now apply (IH e).
Qed.

Lemma resolve_fails_iff_dangling_witness :
  (exists e,
      snd (resolve_value
             (VDict [("subnets", VList [VStr "ref:vpc-one";
                                        VStr "ref:subnet-two.id"])])
             [("vpc-one", token_handle "vpc-one")]) = inl e)
  <-> dangling [("vpc-one", token_handle "vpc-one")]
        (VDict [("subnets", VList [VStr "ref:vpc-one";
                                   VStr "ref:subnet-two.id"])]) = true.
Proof.
  assert (Hacc : has_accessors [("vpc-one", token_handle "vpc-one")]).
  { intros k h. cbn [dict_get].
    destruct (String.eqb "vpc-one" k); [|discriminate].
    intros [= <-]. discriminate. }
  exact (proj1 (resolve_fails_iff_dangling _ Hacc) _).
Defined.

(** ** The registry and the stack during a build *)

Lemma dict_set_keys {V : Type} (d : list (string * V)) (k : string) (v : V) :
  dict_keys (dict_set d k v)
  = if dict_has d k then dict_keys d else (dict_keys d ++ [k])%list.
Proof.
  unfold dict_has, dict_keys. induction d as [|[k' v'] d IH]; [reflexivity|].
  cbn [dict_set dict_get]. destruct (String.eqb k' k) eqn:E; [reflexivity|].
  cbn [map fst]. rewrite IH. now destruct (dict_get d k).
Qed.

Lemma dict_has_In {V : Type} (d : list (string * V)) (k : string) :
  dict_has d k = true <-> In k (dict_keys d).
Proof.
  unfold dict_has. induction d as [|[k' v'] d IH]; cbn [dict_get dict_keys map fst].
  - split; [discriminate|intros []].
  - destruct (String.eqb_spec k' k) as [->|Hne].
    + split; [now left|reflexivity].
    + rewrite IH. split; [now right|]. intros [H|H]; [now elim Hne|exact H].
Qed.

Lemma dict_set_NoDup {V : Type} (d : list (string * V)) (k : string) (v : V) :
  NoDup (dict_keys d) -> NoDup (dict_keys (dict_set d k v)).
Proof.
  intros Hnd. rewrite dict_set_keys.
  destruct (dict_has d k) eqn:Hk; [exact Hnd|].
  apply NoDup_app; [exact Hnd|repeat constructor; intros []|].
  intros x Hx [<-|[]]. apply dict_has_In in Hx. congruence.
Qed.

(** What one turn of the loop leaves: the configuration as it was, the
    output only longer, and either the registry and the stack as they
    were or one handle stored under the name of the declaration and one
    resource construct with that name as its id. *)
Lemma build_one_effect (imports : Imports) (b : Builder) (rc : AWSResource) :
  config (fst (build_one imports b rc)) = config b
  /\ (exists w, stdout (fst (build_one imports b rc)) = (stdout b ++ w)%list)
  /\ ((resources (fst (build_one imports b rc)) = resources b
       /\ stack (fst (build_one imports b rc)) = stack b)
      \/ exists h path cls kwargs,
          snd (build_one imports b rc) = Normal
          /\ resources (fst (build_one imports b rc))
             = dict_set (resources b) (res_name rc) h
          /\ stack (fst (build_one imports b rc))
             = (stack b ++ [Resource path cls (res_name rc) kwargs])%list).
Proof.
  unfold build_one.
  destruct (resolve_args _ (resources b)) as [w [e|resolved_args]].
  - cbn [fst snd]. split; [reflexivity|]. split; [now exists w|].
    left. now split.
  - destruct (materialize imports _ _ _ _ _ resolved_args)
      as [e|[[h c] ev]] eqn:E.
    + destruct (caught e); cbn [fst snd say config stdout resources stack].
      * split; [reflexivity|]. split.
        -- exists (w ++ [ErrorCreating (res_name rc) (res_type rc) e])%list.
           now rewrite app_assoc.
        -- left. now split.
      * split; [reflexivity|]. split; [now exists w|]. left. now split.
    + apply materialize_construct in E as [path [cls [kwargs ->]]].
      cbn [fst snd register say config stdout resources stack].
      split; [reflexivity|]. split.
      * exists (w ++ [ev])%list. now rewrite app_assoc.
      * right. now exists h, path, cls, kwargs.
Qed.

Lemma resource_ids_snoc (b b' : Builder) (path cls id : string)
    (kwargs : Dict) :
  stack b' = (stack b ++ [Resource path cls id kwargs])%list ->
  resource_ids b' = (resource_ids b ++ [id])%list.
Proof.
  intros H. unfold resource_ids. rewrite H, flat_map_app. reflexivity.
Qed.

Lemma build_loop_effect (imports : Imports) (rcs : list AWSResource) :
  forall b,
    config (fst (build_loop imports b rcs)) = config b
    /\ (NoDup (dict_keys (resources b)) ->
        NoDup (dict_keys (resources (fst (build_loop imports b rcs)))))
    /\ incl (dict_keys (resources (fst (build_loop imports b rcs))))
         (dict_keys (resources b) ++ map res_name rcs)
    /\ incl (resource_ids (fst (build_loop imports b rcs)))
         (resource_ids b ++ map res_name rcs)
    /\ (incl (dict_keys (resources b)) (resource_ids b) ->
        incl (dict_keys (resources (fst (build_loop imports b rcs))))
          (resource_ids (fst (build_loop imports b rcs)))).
Proof.
  induction rcs as [|rc rcs IH]; intros b.
  - cbn [build_loop fst map]. rewrite !app_nil_r.
    repeat split; auto using incl_refl.
  - cbn [build_loop].
    destruct (build_one_effect imports b rc) as [Hc [_ Hcases]].
    assert (Hstep :
              (NoDup (dict_keys (resources b)) ->
               NoDup (dict_keys (resources (fst (build_one imports b rc)))))
              /\ incl (dict_keys (resources (fst (build_one imports b rc))))
                   (dict_keys (resources b) ++ [res_name rc])
              /\ incl (resource_ids (fst (build_one imports b rc)))
                   (resource_ids b ++ [res_name rc])
              /\ (incl (dict_keys (resources b)) (resource_ids b) ->
                  incl (dict_keys (resources (fst (build_one imports b rc))))
                    (resource_ids (fst (build_one imports b rc))))).
    { destruct Hcases as [[Hr Hs]|[h [path [cls [kwargs [_ [Hr Hs]]]]]]].
      - assert (Hids : resource_ids (fst (build_one imports b rc))
                       = resource_ids b)
          by (unfold resource_ids; now rewrite Hs).
        rewrite Hr, Hids. repeat split; auto using incl_appl, incl_refl.
      - rewrite Hr, (resource_ids_snoc _ _ _ _ _ _ Hs).
        split; [|split; [|split]].
        + intros Hnd. now apply dict_set_NoDup.
        + rewrite dict_set_keys.
          destruct (dict_has (resources b) (res_name rc));
            auto using incl_appl, incl_refl.
        + apply incl_refl.
        + intros Hin. rewrite dict_set_keys.
          destruct (dict_has (resources b) (res_name rc)).
          * now apply incl_appl.
          * apply incl_app; [now apply incl_appl|].
            apply incl_appr, incl_refl. }
    destruct Hstep as [Hnd [Hk [Hi Hki]]].
    destruct (build_one imports b rc) as [b' [|e]]; cbn [fst] in *.
    + destruct (IH b') as [IHc [IHnd [IHk [IHi IHki]]]].
      split; [congruence|]. split; [auto|]. split; [|split].
      * intros x Hx. apply IHk in Hx. cbn [map].
        apply in_app_or in Hx as [Hx|Hx].
        -- apply Hk in Hx. apply in_app_or in Hx as [Hx|[<-|[]]];
             apply in_or_app; [now left|right; now left].
        -- apply in_or_app. right. now right.
      * intros x Hx. apply IHi in Hx. cbn [map].
        apply in_app_or in Hx as [Hx|Hx].
        -- apply Hi in Hx. apply in_app_or in Hx as [Hx|[<-|[]]];
             apply in_or_app; [now left|right; now left].
        -- apply in_or_app. right. now right.
      * auto.
    + split; [exact Hc|]. split; [exact Hnd|]. split; [|split].
      * intros x Hx. apply Hk in Hx. cbn [map].
        apply in_app_or in Hx as [Hx|[<-|[]]];
          apply in_or_app; [now left|right; now left].
      * intros x Hx. apply Hi in Hx. cbn [map].
        apply in_app_or in Hx as [Hx|[<-|[]]];
          apply in_or_app; [now left|right; now left].
      * exact Hki.
Qed.

Lemma outputs_snoc (b : Builder) (id : string) (v : Value) :
  outputs {| stack := (stack b ++ [TerraformOutput id v])%list;
             config := config b; resources := resources b;
             stdout := stdout b |}
  = (outputs b ++ [(id, v)])%list.
Proof. unfold outputs. cbn [stack]. now rewrite flat_map_app. Qed.

(** What the export loop leaves: the registry, the configuration and the
    resource constructs as they were, the output only longer, and the
    outputs it adds. *)
Lemma export_effect (terraform_output : OutputCtor) (items : Registry) :
  forall b,
    resources (export terraform_output b items) = resources b
    /\ config (export terraform_output b items) = config b
    /\ resource_ids (export terraform_output b items) = resource_ids b
    /\ (exists w,
           stdout (export terraform_output b items) = (stdout b ++ w)%list)
    /\ exists O,
        outputs (export terraform_output b items) = (outputs b ++ O)%list
        /\ (forall id v,
               In (id, v) O ->
               exists name h,
                 In (name, h) items /\ id = "output_" ++ name
                 /\ h_getattr h "id" = Some v)
        /\ (forall name h,
               In (name, h) items ->
               (exists v, h_getattr h "id" = Some v
                          /\ In ("output_" ++ name, v) O)
               \/ exists e,
                   In (FailedExport name e)
                     (stdout (export terraform_output b items)))
        /\ ((forall scope id v, terraform_output scope id v = None) ->
            O = exported items).
Proof.
  induction items as [|[name resource] items IH]; intros b.
  - cbn [export]. repeat split.
    + exists []. now rewrite app_nil_r.
    + exists []. rewrite app_nil_r. repeat split.
      * intros id v [].
      * intros n h [].
  - assert (Hfail : forall e,
              let b1 := say b [FailedExport name e] in
              export terraform_output b (( name, resource) :: items)
              = export terraform_output b1 items ->
              (h_getattr resource "id" = None
               \/ exists v, h_getattr resource "id" = Some v
                            /\ terraform_output (stack b) ("output_" ++ name) v
                               = Some e) ->
              resources (export terraform_output b ((name, resource) :: items))
              = resources b
              /\ config (export terraform_output b ((name, resource) :: items))
                 = config b
              /\ resource_ids
                   (export terraform_output b ((name, resource) :: items))
                 = resource_ids b
              /\ (exists w,
                     stdout (export terraform_output b
                               ((name, resource) :: items))
                     = (stdout b ++ w)%list)
              /\ exists O,
                  outputs (export terraform_output b
                             ((name, resource) :: items))
                  = (outputs b ++ O)%list
                  /\ (forall id v,
                         In (id, v) O ->
                         exists name' h,
                           In (name', h) ((name, resource) :: items)
                           /\ id = "output_" ++ name'
                           /\ h_getattr h "id" = Some v)
                  /\ (forall name' h,
                         In (name', h) ((name, resource) :: items) ->
                         (exists v, h_getattr h "id" = Some v
                                    /\ In ("output_" ++ name', v) O)
                         \/ exists e',
                             In (FailedExport name' e')
                               (stdout (export terraform_output b
                                          ((name, resource) :: items))))
                  /\ ((forall scope id v,
                          terraform_output scope id v = None) ->
                      O = exported ((name, resource) :: items))).
    { intros e b1 Heq Hwhy. rewrite Heq.
      destruct (IH b1) as [Hr [Hc [Hi [[w Hw] [O [Ho [H1 [H2 H3]]]]]]]].
      split; [exact Hr|]. split; [exact Hc|]. split; [exact Hi|].
      split.
      { exists ([FailedExport name e] ++ w)%list. rewrite Hw.
        unfold b1. cbn [say stdout]. now rewrite <- app_assoc. }
      exists O. split; [exact Ho|]. split; [|split].
      - intros id v Hin. destruct (H1 id v Hin) as [n [h [Hn Hrest]]].
        exists n, h. split; [now right|exact Hrest].
      - intros n h [[= <- <-]|Hin]; [|now apply H2].
        right. exists e. rewrite Hw. unfold b1. cbn [say stdout].
        apply in_or_app. left. apply in_or_app. right. now left.
      - intros Hnone. destruct Hwhy as [Hget|[v [Hget Hout]]].
        + cbn [exported flat_map fst snd]. rewrite Hget. cbn [app].
          now apply H3.
        + rewrite Hnone in Hout. discriminate. }
    destruct (h_getattr resource "id") as [v|] eqn:Hget.
    + destruct (terraform_output (stack b) ("output_" ++ name) v)
        as [e|] eqn:Hout.
      * apply (Hfail e).
        -- cbn [export]. now rewrite Hget, Hout.
        -- right. now exists v.
      * cbn [export]. rewrite Hget, Hout.
        destruct (IH {| stack := (stack b
                                  ++ [TerraformOutput ("output_" ++ name) v])%list;
                        config := config b; resources := resources b;
                        stdout := stdout b |})
          as [Hr [Hc [Hi [[w Hw] [O [Ho [H1 [H2 H3]]]]]]]].
        rewrite outputs_snoc in Ho.
        split; [exact Hr|]. split; [exact Hc|]. split.
        { rewrite Hi. unfold resource_ids. cbn [stack].
          rewrite flat_map_app. cbn [flat_map]. now rewrite !app_nil_r. }
        split; [now exists w|].
        exists (("output_" ++ name, v) :: O). split; [|split; [|split]].
        -- rewrite Ho. now rewrite <- app_assoc.
        -- intros id v' [[= <- <-]|Hin].
           ++ exists name, resource. split; [now left|now split].
           ++ destruct (H1 id v' Hin) as [n [h [Hn Hrest]]].
              exists n, h. split; [now right|exact Hrest].
        -- intros n h [[= <- <-]|Hin].
           ++ left. exists v. split; [exact Hget|now left].
           ++ destruct (H2 n h Hin) as [[v' [Hg Hv']]|He].
              ** left. exists v'. split; [exact Hg|now right].
              ** now right.
        -- intros Hnone. cbn [exported flat_map fst snd]. rewrite Hget.
           cbn [app]. f_equal. now apply H3.
    + apply (Hfail (AttributeError "id")).
      * cbn [export]. now rewrite Hget.
      * now left.
Qed.

(** X13: whatever the backend does, the registry a build leaves has each
    name once, holds only names of declarations of the configuration, and
    holds no name for which the backend was not called with that name as
    the construct id; the backend is called for declared names only. *)
Theorem build_registry_names :
  forall (imports : Imports) (terraform_output : OutputCtor) (cfg : Config),
    NoDup (dict_keys
             (resources
                (fst (build imports terraform_output (new_builder cfg)))))
    /\ incl (dict_keys
               (resources
                  (fst (build imports terraform_output (new_builder cfg)))))
         (map res_name (aws_resources cfg))
    /\ incl (dict_keys
               (resources
                  (fst (build imports terraform_output (new_builder cfg)))))
         (resource_ids
            (fst (build imports terraform_output (new_builder cfg))))
    /\ incl (resource_ids
               (fst (build imports terraform_output (new_builder cfg))))
         (map res_name (aws_resources cfg)).
Proof.
  intros imports terraform_output cfg. unfold build. cbn [config new_builder].
  destruct (build_loop_effect imports (aws_resources cfg) (new_builder cfg))
    as [_ [Hnd [Hk [Hi Hki]]]].
  cbn [resources new_builder dict_keys map app] in Hnd, Hk, Hki.
  change (resource_ids (new_builder cfg)) with (@nil string) in Hi, Hki.
  cbn [app] in Hi.
  specialize (Hnd (NoDup_nil _)). specialize (Hki (incl_refl _)).
  destruct (build_loop imports (new_builder cfg) (aws_resources cfg))
    as [b' [|e]]; cbn [fst] in *.
  - destruct (export_effect terraform_output (resources b') b')
      as [Hr [_ [Hids _]]].
    rewrite Hr, Hids. now repeat split.
  - now repeat split.
Qed.

(** X14: in a build that ends normally every output is [output_] and the
    name of a registered resource, with the [id] of its handle as value;
    every registered resource has such an output or a line that reports
    the failure to export it, for [resource.id] and [TerraformOutput] may
    both raise; when [TerraformOutput] never raises the outputs are those
    of the registered resources that have an [id], one each, in the order
    of the registry.  A build that raises has exported nothing. *)
Theorem build_outputs :
  forall (imports : Imports) (terraform_output : OutputCtor) (cfg : Config),
    let b := fst (build imports terraform_output (new_builder cfg)) in
    match snd (build imports terraform_output (new_builder cfg)) with
    | Normal =>
        (forall id v,
            In (id, v) (outputs b) ->
            exists name h,
              In (name, h) (resources b) /\ id = "output_" ++ name
              /\ h_getattr h "id" = Some v)
        /\ (forall name h,
               In (name, h) (resources b) ->
               (exists v, h_getattr h "id" = Some v
                          /\ In ("output_" ++ name, v) (outputs b))
               \/ exists e, In (FailedExport name e) (stdout b))
        /\ ((forall scope id v, terraform_output scope id v = None) ->
            outputs b = exported (resources b))
    | Raised _ => outputs b = []
    end.
Proof.
  intros imports terraform_output cfg. unfold build. cbn [config new_builder].
  pose proof (build_loop_outputs imports (aws_resources cfg) (new_builder cfg))
    as Ho.
  change (outputs (new_builder cfg)) with (@nil (string * Value)) in Ho.
  destruct (build_loop imports (new_builder cfg) (aws_resources cfg))
    as [b' [|e]]; cbn [fst snd] in *; cbv zeta.
  - destruct (export_effect terraform_output (resources b') b')
      as [Hr [_ [_ [_ [O [HO [H1 [H2 H3]]]]]]]].
    rewrite Hr, HO, Ho. cbn [app]. split; [exact H1|]. split; [exact H2|exact H3].
  - exact Ho.
Qed.

(** With declarations [vpc-one] and [output_vpc-one] the output of the
    first would take the id of the second resource: it is reported, and
    the output of the second is exported. *)
Example build_output_id_taken :
  let b := fst (build demo_imports scope_output
                  (new_builder
                     (with_resources example_config
                        [decl_one;
                         {| res_name := "output_vpc-one"; res_type := "vpc.Vpc";
                            res_args := []; res_custom_name := None |}]))) in
  outputs b = [("output_output_vpc-one", VStr "${output_vpc-one.id}")]
  /\ resource_ids b = ["vpc-one"; "output_vpc-one"]
  /\ stdout b
     = [CreatedResource "demo-example-dev-use1-vpc-one" "vpc.Vpc";
        CreatedResource "demo-example-dev-use1-output_vpc-one" "vpc.Vpc";
        FailedExport "vpc-one"
          (BackendError
             "There is already a Construct with name 'output_vpc-one'")].
Proof. repeat split. Qed.

(** ** The call of the backend *)

Lemma dict_remove_get_other {V : Type} (d : list (string * V)) (k k' : string) :
  k' <> k -> dict_get (dict_remove d k) k' = dict_get d k'.
Proof.
  intros Hne. induction d as [|[k0 v0] d IH]; [reflexivity|].
  cbn [dict_remove dict_get].
  destruct (String.eqb_spec k0 k) as [->|Hk0].
  - destruct (String.eqb_spec k k') as [->|_]; [now elim Hne|reflexivity].
  - cbn [dict_get]. now rewrite IH.
Qed.

Lemma dict_get_absent {V : Type} (d : list (string * V)) (k : string) :
  ~ In k (dict_keys d) -> dict_get d k = None.
Proof.
  intros Hnin. destruct (dict_get d k) eqn:E; [|reflexivity].
  elim Hnin. apply dict_has_In. unfold dict_has. now rewrite E.
Qed.

Lemma dict_remove_get_same {V : Type} (d : list (string * V)) (k : string) :
  NoDup (dict_keys d) -> dict_get (dict_remove d k) k = None.
Proof.
  induction d as [|[k0 v0] d IH]; [reflexivity|].
  cbn [dict_keys map fst]. intros Hnd. inversion Hnd as [|? ? Hnin Hnd']. subst.
  cbn [dict_remove].
  destruct (String.eqb_spec k0 k) as [->|Hk0].
  - now apply dict_get_absent.
  - cbn [dict_get]. destruct (String.eqb_spec k0 k) as [->|_];
      [now elim Hk0|now apply IH].
Qed.

Lemma dict_has_keys {V W : Type} (d : list (string * V))
    (d' : list (string * W)) (k : string) :
  dict_keys d' = dict_keys d -> dict_has d' k = dict_has d k.
Proof.
  intros Hk.
  destruct (dict_has d k) eqn:E.
  - apply dict_has_In. rewrite Hk. now apply dict_has_In.
  - destruct (dict_has d' k) eqn:E'; [|reflexivity].
    apply dict_has_In in E'. rewrite Hk in E'. apply dict_has_In in E'.
    congruence.
Qed.

Lemma apply_common_parameters_other (config : Config) (resolved_args : Dict)
    (resource_type k : string) :
  k <> "tags" ->
  dict_get (_apply_common_parameters config resolved_args resource_type) k
  = dict_get resolved_args k.
Proof.
  intros Hk. unfold _apply_common_parameters, dict_setdefault.
  destruct (supports_tags resource_type); [|reflexivity].
  destruct (truthy (VDict (tags config))); [|reflexivity].
  destruct (dict_has resolved_args "tags"); [reflexivity|].
  apply dict_get_app_other. apply String.eqb_neq. congruence.
Qed.

(** The construct [materialize] ends with: its class and the arguments
    the constructor was called with. *)
Lemma materialize_call (imports : Imports) (b : Builder)
    (name resource_type : string) (custom_name : option string)
    (is_existing : Value) (resolved_args : Dict)
    (h : Handle) (c : Construct) (ev : Event) :
  materialize imports b name resource_type custom_name is_existing
    resolved_args = inr (h, c, ev) ->
  c = (if truthy is_existing
       then Resource
              ("imports.aws." ++ fst (_map_resource_type resource_type)
               ++ "_data")
              (snd (_map_resource_type resource_type) ++ "Data")
       else Resource
              ("imports.aws." ++ fst (_map_resource_type resource_type))
              (snd (_map_resource_type resource_type)))
        name
        (_apply_common_parameters (config b) resolved_args resource_type).
Proof.
  unfold materialize.
  destruct (_map_resource_type resource_type) as [module_name class_name].
  cbn [fst snd].
  destruct (import_class imports _ class_name) as [e|ResourceClass];
    [discriminate|].
  destruct (truthy is_existing).
  - destruct (import_class imports _ _) as [e|DataClass]; [discriminate|].
    destruct (DataClass name _) as [e|h']; [discriminate|].
    now intros [= _ <- _].
  - destruct (ResourceClass name _) as [e|h']; [discriminate|].
    now intros [= _ <- _].
Qed.

(** X15: when one turn of the loop calls the backend, the construct id is
    the name of the declaration; the [existing] mark is not among the
    keyword arguments; every other key but [tags] is passed exactly when
    the declaration has it; and the data source class of the data module
    is called when the mark is truthy, the resource class otherwise. *)
Theorem build_one_backend_call :
  forall (imports : Imports) (b : Builder) (rc : AWSResource)
         (path cls id : string) (kwargs : Dict),
    NoDup (dict_keys (res_args rc)) ->
    stack (fst (build_one imports b rc))
    = (stack b ++ [Resource path cls id kwargs])%list ->
    id = res_name rc
    /\ dict_has kwargs "existing" = false
    /\ (forall k, k <> "existing" -> k <> "tags" ->
                  dict_has kwargs k = dict_has (res_args rc) k)
    /\ (path, cls)
       = if truthy (existing_flag rc)
         then ("imports.aws." ++ fst (_map_resource_type (res_type rc))
               ++ "_data",
               snd (_map_resource_type (res_type rc)) ++ "Data")
         else ("imports.aws." ++ fst (_map_resource_type (res_type rc)),
               snd (_map_resource_type (res_type rc))).
Proof.
  intros imports b rc path cls id kwargs Hnd. unfold build_one.
  assert (Hsame : forall l : list Construct, stack b = (stack b ++ l)%list ->
                                             l = []).
  { intros l Hl. apply (app_inv_head (stack b)). now rewrite app_nil_r. }
  destruct (resolve_args _ (resources b)) as [w [e|resolved_args]] eqn:Hres.
  { cbn [fst say stack]. intros H. apply Hsame in H. discriminate. }
  destruct (materialize imports _ _ _ _ _ resolved_args)
    as [e|[[h c] ev]] eqn:E.
  { destruct (caught e); cbn [fst say stack]; intros H; apply Hsame in H;
      discriminate. }
  apply materialize_call in E. cbn [fst register say stack config].
  intros H. apply app_inv_head in H. injection H as H. subst c.
  fold (existing_flag rc) in H.
  apply resolve_args_keys in Hres.
  assert (Hget : forall k, k <> "tags" ->
            dict_has kwargs k
            = dict_has (dict_remove (res_args rc) "existing") k).
  { intros k Hk.
    destruct (truthy (existing_flag rc)); injection H as _ _ _ <-;
      unfold dict_has at 1;
      rewrite apply_common_parameters_other by exact Hk;
      exact (dict_has_keys _ _ _ Hres). }
  split; [|split; [|split]].
  - destruct (truthy (existing_flag rc)); now injection H as _ _ <- _.
  - rewrite Hget by discriminate. unfold dict_has.
    now rewrite dict_remove_get_same.
  - intros k Hk Ht. rewrite (Hget k Ht). unfold dict_has.
    now rewrite dict_remove_get_other.
  - destruct (truthy (existing_flag rc)); now injection H as <- <- _ _.
Qed.

Lemma build_one_backend_call_witness :
  "vpc-shared" = res_name decl_existing
  /\ dict_has [("id", VStr "vpc-0abc")] "existing" = false
  /\ ("imports.aws.vpc_data", "VpcData")
     = ("imports.aws." ++ fst (_map_resource_type "vpc.Vpc") ++ "_data",
        snd (_map_resource_type "vpc.Vpc") ++ "Data").
Proof.
  assert (Hnd : NoDup (dict_keys (res_args decl_existing))).
  { repeat constructor; cbn; intuition discriminate. }
  destruct (build_one_backend_call data_imports (new_builder example_config)
              decl_existing "imports.aws.vpc_data" "VpcData" "vpc-shared"
              [("id", VStr "vpc-0abc")] Hnd eq_refl) as [H1 [H2 [_ H4]]].
  split; [exact H1|]. split; [exact H2|exact H4].
Defined.

(** X16: once the backend has returned a handle for a declaration, a
    reference to the name of the declaration reads that handle: the
    property when it has it, the generic accessor otherwise; the handles
    stored under other names are the ones that were there. *)
Theorem build_one_then_reference :
  forall (imports : Imports) (b : Builder) (rc : AWSResource)
         (w : list Event) (resolved_args : Dict)
         (h : Handle) (c : Construct) (ev : Event),
    contains "." (res_name rc) = false ->
    resolve_args (dict_remove (res_args rc) "existing") (resources b)
    = (w, inr resolved_args) ->
    materialize imports (say b w) (res_name rc) (res_type rc)
      (res_custom_name rc) (existing_flag rc) resolved_args
    = inr (h, c, ev) ->
    (forall attr,
        snd (resolve_value (VStr ("ref:" ++ res_name rc ++ "." ++ attr))
               (resources (fst (build_one imports b rc))))
        = match attribute_of h attr with
          | Some v => inr v
          | None => inl (AttributeError "get_string")
          end)
    /\ snd (resolve_value (VStr ("ref:" ++ res_name rc))
              (resources (fst (build_one imports b rc))))
       = match attribute_of h "id" with
         | Some v => inr v
         | None => inl (AttributeError "get_string")
         end
    /\ forall other,
        other <> res_name rc ->
        dict_get (resources (fst (build_one imports b rc))) other
        = dict_get (resources b) other.
Proof.
  intros imports b rc w resolved_args h c ev Hname Hres Hmat.
  assert (Hb : resources (fst (build_one imports b rc))
               = dict_set (resources b) (res_name rc) h).
  { unfold build_one. rewrite Hres. fold (existing_flag rc). now rewrite Hmat. }
  rewrite Hb. split; [|split].
  - intros attr.
    rewrite resolve_ref_text, (parse_ref_dotted _ attr Hname). cbn [fst snd].
    apply read_ref_present, dict_get_set_same.
  - rewrite resolve_ref_text, (parse_ref_plain _ Hname). cbn [fst snd].
    apply read_ref_present, dict_get_set_same.
  - intros other Hne. apply dict_get_set_other.
    apply String.eqb_neq. congruence.
Qed.

Lemma build_one_then_reference_witness :
  snd (resolve_value (VStr "ref:vpc-one")
         (resources (fst (build_one demo_imports (new_builder example_config)
                            decl_one))))
  = inr (VStr "${vpc-one.id}").
Proof.
  exact (proj1 (proj2
                  (build_one_then_reference demo_imports
                     (new_builder example_config) decl_one []
                     [("cidr_block", VStr "10.0.0.0/16")]
                     (token_handle "vpc-one")
                     (Resource "imports.aws.vpc" "Vpc" "vpc-one"
                        [("cidr_block", VStr "10.0.0.0/16")])
                     (CreatedResource "demo-example-dev-use1-vpc-one" "vpc.Vpc")
                     eq_refl eq_refl eq_refl))).
Defined.

(** ** The tag policy on every type *)

(** X17: for every type and every configuration the tag policy keeps
    each argument that is given, changes no key but [tags], and applied
    twice does what it does once. *)
Theorem apply_common_parameters_keeps_arguments :
  forall (config : Config) (resolved_args : Dict) (resource_type : string),
    (forall k v,
        dict_get resolved_args k = Some v ->
        dict_get (_apply_common_parameters config resolved_args resource_type)
          k = Some v)
    /\ (forall k,
           k <> "tags" ->
           dict_get
             (_apply_common_parameters config resolved_args resource_type) k
           = dict_get resolved_args k)
    /\ _apply_common_parameters config
         (_apply_common_parameters config resolved_args resource_type)
         resource_type
       = _apply_common_parameters config resolved_args resource_type.
Proof.
  intros config resolved_args resource_type. split; [|split].
  - intros k v Hk. unfold _apply_common_parameters, dict_setdefault, dict_has.
    destruct (supports_tags resource_type); [|exact Hk].
    destruct (truthy (VDict (tags config))); [|exact Hk].
    destruct (dict_get resolved_args "tags") eqn:Ht; [exact Hk|].
    rewrite dict_get_app_other; [exact Hk|].
    apply String.eqb_neq. intros <-. congruence.
  - intros k Hk. now apply apply_common_parameters_other.
  - unfold _apply_common_parameters, dict_setdefault, dict_has.
    destruct (supports_tags resource_type); [|reflexivity].
    destruct (truthy (VDict (tags config))); [|reflexivity].
    destruct (dict_get resolved_args "tags") eqn:Ht.
    + now rewrite Ht.
    + now rewrite (dict_get_app_absent _ _ _ Ht).
Qed.

(** ** The first missing key *)

Lemma check_keys_first (present : list string) (key : string)
    (rest : list string) (document : Config) :
  (forall k, In k present -> dict_has (scalars document) k = true) ->
  dict_has (scalars document) key = false ->
  check_keys (present ++ key :: rest) document
  = inl (ValueError ("Missing required configuration key: " ++ key)).
Proof.
  intros Hp Hk. induction present as [|p present IH].
  - cbn [app check_keys]. now rewrite Hk.
  - cbn [app check_keys]. rewrite (Hp p (or_introl eq_refl)). cbn [negb].
    apply IH. intros k Hin. apply Hp. now right.
Qed.

(** X18: the error of [load_config] names the first required key, in the
    order team, service, environment, region, that the document lacks,
    whatever other keys are missing after it. *)
Theorem load_config_first_missing :
  forall (document : Config) (present : list string) (key : string)
         (rest : list string),
    required_keys = (present ++ key :: rest)%list ->
    (forall k, In k present -> dict_has (scalars document) k = true) ->
    dict_has (scalars document) key = false ->
    load_config document
    = inl (ValueError ("Missing required configuration key: " ++ key)).
Proof.
  intros document present key rest Hreq Hp Hk.
  unfold load_config. rewrite Hreq. now apply check_keys_first.
Qed.

Lemma load_config_first_missing_witness :
  load_config team_only_config
  = inl (ValueError "Missing required configuration key: service").
Proof.
  apply (load_config_first_missing team_only_config ["team"] "service"
           ["environment"; "region"]).
  - reflexivity.
  - intros k [<-|[]]. reflexivity.
  - reflexivity.
Defined.

(** ** The stack *)

Lemma build_one_stack (imports : Imports) (b : Builder) (rc : AWSResource) :
  exists l, stack (fst (build_one imports b rc)) = (stack b ++ l)%list.
Proof.
  destruct (build_one_effect imports b rc)
    as [_ [_ [[_ Hs]|[h [path [cls [kwargs [_ [_ Hs]]]]]]]]].
  - exists []. now rewrite app_nil_r.
  - eexists. exact Hs.
Qed.

Lemma build_loop_stack (imports : Imports) (rcs : list AWSResource) :
  forall b, exists l,
      stack (fst (build_loop imports b rcs)) = (stack b ++ l)%list.
Proof.
  induction rcs as [|rc rcs IH]; intros b.
  - exists []. cbn [build_loop fst]. now rewrite app_nil_r.
  - cbn [build_loop]. destruct (build_one_stack imports b rc) as [l Hl].
    destruct (build_one imports b rc) as [b' [|e]]; cbn [fst] in *.
    + destruct (IH b') as [l' Hl']. exists (l ++ l')%list.
      now rewrite Hl', Hl, app_assoc.
    + now exists l.
Qed.

Lemma export_stack (terraform_output : OutputCtor) (items : Registry) :
  forall b, exists l,
      stack (export terraform_output b items) = (stack b ++ l)%list.
Proof.
  induction items as [|[name resource] items IH]; intros b.
  - exists []. cbn [export]. now rewrite app_nil_r.
  - cbn [export]. destruct (h_getattr resource "id") as [v|].
    + destruct (terraform_output (stack b) ("output_" ++ name) v) as [e|].
      * destruct (IH (say b [FailedExport name e])) as [l Hl].
        exists l. now rewrite Hl.
      * destruct (IH {| stack := (stack b
                                  ++ [TerraformOutput ("output_" ++ name) v])%list;
                        config := config b; resources := resources b;
                        stdout := stdout b |}) as [l Hl].
        eexists. rewrite Hl. cbn [stack]. now rewrite <- app_assoc.
    + destruct (IH (say b [FailedExport name (AttributeError "id")]))
        as [l Hl].
      exists l. now rewrite Hl.
Qed.

(** X19: a stack that is built holds the document as its configuration,
    which has the four required keys; its first construct is the provider
    of the region of the document (the default region is not used); and
    what it printed is the output of the builder.  A stack that raises has
    printed the error last. *)
Theorem AwsClassicStack_outcome :
  forall (imports : Imports) (terraform_output : OutputCtor)
         (document : Config),
    match AwsClassicStack imports terraform_output document with
    | (w, inr b) =>
        config b = document
        /\ w = stdout b
        /\ (forall key, In key required_keys ->
                        dict_has (scalars document) key = true)
        /\ exists region,
            dict_get (scalars document) "region" = Some region
            /\ hd_error (stack b) = Some (AwsProvider "aws" region)
    | (w, inl e) => exists w', w = (w' ++ [ErrorInStack e])%list
    end.
Proof.
  intros imports terraform_output document. unfold AwsClassicStack.
  destruct (load_config document) as [e|config_data] eqn:Hload.
  { now exists []. }
  assert (Hkeys : forall key, In key required_keys ->
                              dict_has (scalars document) key = true).
  { intros key Hin.
    destruct (dict_has (scalars document) key) eqn:Hk; [reflexivity|].
    destruct (check_keys_missing required_keys document) as [k [_ [_ Hc]]];
      [now exists key|].
    unfold load_config in Hload. congruence. }
  assert (Hdoc : config_data = document).
  { unfold load_config in Hload.
    rewrite (check_keys_present _ _ Hkeys) in Hload. congruence. }
  subst config_data. unfold build. cbn [config new_builder].
  destruct (build_loop_effect imports (aws_resources document)
              (new_builder document)) as [Hc _].
  destruct (build_loop_stack imports (aws_resources document)
              (new_builder document)) as [l Hl].
  destruct (build_loop imports (new_builder document) (aws_resources document))
    as [b' [|e]]; cbn [fst] in *.
  - destruct (export_effect terraform_output (resources b') b')
      as [_ [Hce _]].
    destruct (export_stack terraform_output (resources b') b') as [l' Hl'].
    split; [now rewrite Hce, Hc|]. split; [reflexivity|].
    split; [exact Hkeys|].
    assert (Hregion : dict_has (scalars document) "region" = true)
      by (apply Hkeys; cbn; tauto).
    unfold dict_has in Hregion.
    destruct (dict_get (scalars document) "region") as [region|] eqn:Hr;
      [|discriminate].
    exists region. split; [reflexivity|].
    rewrite Hl', Hl. cbn [new_builder stack app hd_error].
    unfold config_get. now rewrite Hr.
  - now exists (stdout b').
Qed.

(** ** Every declaration is accounted for *)

Lemma skipped_app (b b' : Builder) (w : list Event) :
  stdout b' = (stdout b ++ w)%list -> incl (skipped b) (skipped b').
Proof.
  intros H x Hx. unfold skipped in *. rewrite H, flat_map_app.
  apply in_or_app. now left.
Qed.

Lemma build_one_monotone (imports : Imports) (b : Builder) (rc : AWSResource) :
  incl (dict_keys (resources b))
    (dict_keys (resources (fst (build_one imports b rc))))
  /\ incl (skipped b) (skipped (fst (build_one imports b rc))).
Proof.
  destruct (build_one_effect imports b rc) as [_ [[w Hw] Hcases]]. split.
  - destruct Hcases as [[Hr _]|[h [path [cls [kwargs [_ [Hr _]]]]]]];
      rewrite Hr; [apply incl_refl|].
    rewrite dict_set_keys. destruct (dict_has (resources b) (res_name rc));
      [apply incl_refl|apply incl_appl, incl_refl].
  - exact (skipped_app _ _ _ Hw).
Qed.

Lemma build_one_accounted (imports : Imports) (b : Builder) (rc : AWSResource) :
  snd (build_one imports b rc) = Normal ->
  In (res_name rc) (dict_keys (resources (fst (build_one imports b rc))))
  \/ In (res_name rc) (skipped (fst (build_one imports b rc))).
Proof.
  unfold build_one.
  destruct (resolve_args _ (resources b)) as [w [e|resolved_args]];
    [discriminate|].
  destruct (materialize imports _ _ _ _ _ resolved_args) as [e|[[h c] ev]].
  - destruct (caught e); [|discriminate]. intros _. right.
    cbn [fst]. unfold skipped. cbn [say stdout]. rewrite flat_map_app.
    apply in_or_app. right. now left.
  - intros _. left. cbn [fst register resources].
    apply dict_has_In. unfold dict_has. now rewrite dict_get_set_same.
Qed.

Lemma build_loop_accounted (imports : Imports) (rcs : list AWSResource) :
  forall b,
    (incl (dict_keys (resources b))
       (dict_keys (resources (fst (build_loop imports b rcs))))
     /\ incl (skipped b) (skipped (fst (build_loop imports b rcs))))
    /\ (snd (build_loop imports b rcs) = Normal ->
        forall rc, In rc rcs ->
          In (res_name rc)
            (dict_keys (resources (fst (build_loop imports b rcs))))
          \/ In (res_name rc) (skipped (fst (build_loop imports b rcs)))).
Proof.
  induction rcs as [|rc rcs IH]; intros b.
  - cbn [build_loop fst]. split; [split; apply incl_refl|]. intros _ rc [].
  - cbn [build_loop].
    destruct (build_one_monotone imports b rc) as [Hk Hs].
    pose proof (build_one_accounted imports b rc) as Hacc.
    destruct (build_one imports b rc) as [b' [|e]]; cbn [fst snd] in *.
    + destruct (IH b') as [[IHk IHs] IHacc]. split.
      * split; eapply incl_tran; eauto.
      * intros Hn rc' [<-|Hin]; [|now apply IHacc].
        destruct (Hacc eq_refl) as [H|H]; [left; now apply IHk|
                                            right; now apply IHs].
    + split; [now split|discriminate].
Qed.

Lemma export_skipped (terraform_output : OutputCtor) (items : Registry) :
  forall b, incl (skipped b) (skipped (export terraform_output b items)).
Proof.
  intros b. destruct (export_effect terraform_output items b)
    as [_ [_ [_ [[w Hw] _]]]].
  exact (skipped_app _ _ _ Hw).
Qed.

(** X20: when a build ends normally no declaration has been dropped in
    silence: each declaration of the configuration is registered under
    its name, or a line that reports the failure to create it has been
    printed. *)
Theorem build_accounts_for_declarations :
  forall (imports : Imports) (terraform_output : OutputCtor) (cfg : Config)
         (rc : AWSResource),
    snd (build imports terraform_output (new_builder cfg)) = Normal ->
    In rc (aws_resources cfg) ->
    In (res_name rc)
      (dict_keys
         (resources (fst (build imports terraform_output (new_builder cfg)))))
    \/ In (res_name rc)
         (skipped (fst (build imports terraform_output (new_builder cfg)))).
Proof.
  intros imports terraform_output cfg rc. unfold build.
  cbn [config new_builder].
  destruct (build_loop_accounted imports (aws_resources cfg) (new_builder cfg))
    as [_ Hacc].
  destruct (build_loop imports (new_builder cfg) (aws_resources cfg))
    as [b' [|e]]; cbn [fst snd] in *; [|discriminate].
  intros _ Hin.
  destruct (export_effect terraform_output (resources b') b') as [Hr _].
  rewrite Hr. destruct (Hacc eq_refl rc Hin) as [H|H]; [now left|].
  right. now apply export_skipped.
Qed.

Lemma build_accounts_for_declarations_witness :
  In "widget-two"
    (dict_keys
       (resources
          (fst (build demo_imports scope_output
                  (new_builder (with_resources example_config
                                  [decl_one; decl_unknown; decl_three]))))))
  \/ In "widget-two"
       (skipped
          (fst (build demo_imports scope_output
                  (new_builder (with_resources example_config
                                  [decl_one; decl_unknown; decl_three]))))).
Proof.
  apply (build_accounts_for_declarations demo_imports scope_output
           (with_resources example_config [decl_one; decl_unknown; decl_three])
           decl_unknown); [reflexivity|cbn; tauto].
Defined.
